(** * Agent safety core: loop detector, circuit breaker, rate and cost limiter

    A shallow embedding of
    - [chapter-20/src/loop_detector.py]  (module [Loop]),
    - [chapter-21/src/circuit_breaker.py] (module [Breaker]),
    - [chapter-20/src/secure_agent.py]   (module [Secure]),
    followed by the properties the specification states about them.

    Conventions of the embedding.
    - Python [int] is [Z].
    - Clock readings ([time.time()], [datetime.now()]), durations and money
      amounts are Python floats in the source; the code only adds, subtracts,
      multiplies by constants and compares them, and they are modelled as
      rationals [Q] (no rounding).
    - A method that mutates [self] and may raise becomes a function that
      returns the object after the call together with an [outcome]; the
      object returned next to [Raised e] is the object as the exception
      leaves it.
    - The clock is an explicit argument (or a field of the environment). *)

From Stdlib Require Import ZArith QArith String List Bool Lia Lqa.
Import ListNotations.

Open Scope Z_scope.

(** ** Comparisons on rationals, as booleans *)

(** Python [x > y] on floats is [Qltb y x]; [x >= y] is [Qle_bool y x]. *)
Definition Qltb (x y : Q) : bool := negb (Qle_bool y x).

(** Python's [s * n] on strings. *)
Definition str_mul (s : string) (n : N) : string :=
  N.iter n (String.append s) EmptyString.

(** ** The loop detector ([loop_detector.py]) *)

Module Loop.

(** [@dataclass LoopDetectionConfig]. *)
Record LoopDetectionConfig := {
  max_action_repetitions : Z;
  max_total_iterations : Z;
  repetition_window : Z;
  debug : bool
}.

(** [LoopDetectionConfig()]: the defaults of the dataclass. *)
Definition default_config : LoopDetectionConfig :=
  {| max_action_repetitions := 3;
     max_total_iterations := 20;
     repetition_window := 60;
     debug := false |}.

Definition Metadata := list (string * string).

(** [@dataclass ActionRecord]. *)
Record ActionRecord := {
  action : string;
  timestamp : Q;
  metadata : Metadata
}.

(** The fields of a [LoopDetector] instance. *)
Record LoopDetector := {
  config : LoopDetectionConfig;
  action_history : list ActionRecord;
  iteration_count : Z
}.

(** [LoopDetector.__init__]: [config or LoopDetectionConfig()]. *)
Definition init (cfg : option LoopDetectionConfig) : LoopDetector :=
  {| config := match cfg with Some c => c | None => default_config end;
     action_history := [];
     iteration_count := 0 |}.

(** The two exception classes; each carries what its message is formatted
    from. *)
Inductive Exn :=
| LoopDetected (a : string) (repetition_count : Z) (window : Z)
| MaxIterationsExceeded (limit : Z).

Inductive outcome :=
| Returned
| Raised (e : Exn).

Definition is_LoopDetected (o : outcome) : bool :=
  match o with Raised (LoopDetected _ _ _) => true | _ => false end.

Definition is_MaxIterationsExceeded (o : outcome) : bool :=
  match o with Raised (MaxIterationsExceeded _) => true | _ => false end.

(** The list comprehension of [_check_repetition]:
    [[record for record in self.action_history if record.timestamp >= cutoff_time]]. *)
Definition recent_actions (d : LoopDetector) (cutoff_time : Q) : list ActionRecord :=
  filter (fun record => Qle_bool cutoff_time (timestamp record)) (action_history d).

(** [sum(1 for record in recent_actions if record.action == action)]. *)
Definition repetition_count (recent : list ActionRecord) (a : string) : Z :=
  Z.of_nat (length (filter (fun record => String.eqb (action record) a) recent)).

(** [LoopDetector._check_repetition]: [None] when it returns, [Some e] when
    it raises [e]. *)
Definition _check_repetition (d : LoopDetector) (a : string) (current_time : Q)
  : option Exn :=
  let cutoff_time := (current_time - inject_Z (repetition_window (config d)))%Q in
  let recent := recent_actions d cutoff_time in
  let n := repetition_count recent a in
  if max_action_repetitions (config d) <=? n
  then Some (LoopDetected a n (repetition_window (config d)))
  else None.

(** [LoopDetector.check_action]; [current_time] is the value [time.time()]
    returns inside the call.  The [debug] branch only prints. *)
Definition check_action (d : LoopDetector) (a : string) (md : option Metadata)
    (current_time : Q) : LoopDetector * outcome :=
  let d1 := {| config := config d;
               action_history := action_history d;
               iteration_count := iteration_count d + 1 |} in
  if max_total_iterations (config d1) <? iteration_count d1
  then (d1, Raised (MaxIterationsExceeded (max_total_iterations (config d1))))
  else
    match _check_repetition d1 a current_time with
    | Some e => (d1, Raised e)
    | None =>
        let record := {| action := a;
                         timestamp := current_time;
                         metadata := match md with Some m => m | None => [] end |} in
        ({| config := config d1;
            action_history := action_history d1 ++ [record];
            iteration_count := iteration_count d1 |}, Returned)
    end.

(** [LoopDetector._get_recent_actions]:
    [self.action_history[-count:] if len(self.action_history) >= count else self.action_history]. *)
Definition _get_recent_actions (d : LoopDetector) (count : nat) : list string :=
  let h := action_history d in
  let recent :=
    if (count <=? length h)%nat
    then (match count with
          | O => h
          | _ => skipn (length h - count) h
          end)
    else h in
  map action recent.

(** [LoopDetector.reset]. *)
Definition reset (d : LoopDetector) : LoopDetector :=
  {| config := config d; action_history := []; iteration_count := 0 |}.

(** The dictionary [get_stats] returns. *)
Record Stats := {
  total_iterations : Z;
  unique_actions : nat;
  total_actions : nat;
  stats_recent_actions : list string
}.

(** [LoopDetector.get_stats]; [len(set(...))] counts the distinct actions. *)
Definition get_stats (d : LoopDetector) : Stats :=
  {| total_iterations := iteration_count d;
     unique_actions := length (nodup string_dec (map action (action_history d)));
     total_actions := length (action_history d);
     stats_recent_actions := _get_recent_actions d 10 |}.

(** A caller that makes the calls of [calls] one after the other on the same
    detector, each call given as the action and the clock reading of the
    call, and notes how each call ended. *)
Fixpoint run (d : LoopDetector) (calls : list (string * Q))
  : LoopDetector * list outcome :=
  match calls with
  | [] => (d, [])
  | (a, t) :: rest =>
      let (d1, o) := check_action d a None t in
      let (d2, os) := run d1 rest in
      (d2, o :: os)
  end.

End Loop.

(** ** The circuit breaker ([circuit_breaker.py]) *)

Module Breaker.

(** [class CircuitState(Enum)]. *)
Inductive CircuitState := CLOSED | OPEN | HALF_OPEN.

(** An exception raised by the guarded operation, named by its class. *)
Definition exception := string.

(** [@dataclass CircuitBreakerConfig].  [expected_exception] is a class in
    the source, used only in [except self.config.expected_exception]; it is
    kept as the test that clause makes on the exception raised. *)
Record CircuitBreakerConfig := {
  failure_threshold : Z;
  success_threshold : Z;
  timeout : Q;
  expected_exception : exception -> bool
}.

(** The classes that [except Exception] does not catch. *)
Definition outside_Exception : list exception :=
  ["KeyboardInterrupt"; "SystemExit"; "GeneratorExit"; "CancelledError"]%string.

(** [CircuitBreakerConfig()]: the defaults of the dataclass. *)
Definition default_config : CircuitBreakerConfig :=
  {| failure_threshold := 5;
     success_threshold := 2;
     timeout := 60;
     expected_exception :=
       fun e => negb (existsb (String.eqb e) outside_Exception) |}.

(** The fields of a [CircuitBreaker] instance; time stamps are seconds. *)
Record CircuitBreaker := {
  config : CircuitBreakerConfig;
  state : CircuitState;
  failure_count : Z;
  success_count : Z;
  last_failure_time : option Q;
  last_state_change : Q
}.

(** [CircuitBreaker.__init__], at clock reading [now]. *)
Definition init (cfg : option CircuitBreakerConfig) (now : Q) : CircuitBreaker :=
  {| config := match cfg with Some c => c | None => default_config end;
     state := CLOSED;
     failure_count := 0;
     success_count := 0;
     last_failure_time := None;
     last_state_change := now |}.

(** [CircuitBreaker._should_attempt_reset]. *)
Definition _should_attempt_reset (b : CircuitBreaker) (now : Q) : bool :=
  match last_failure_time b with
  | None => false
  | Some t =>
      let time_since_failure := (now - t)%Q in
      Qle_bool (timeout (config b)) time_since_failure
  end.

(** [CircuitBreaker._time_until_retry]: [max(0.0, remaining)]. *)
Definition _time_until_retry (b : CircuitBreaker) (now : Q) : Q :=
  match last_failure_time b with
  | None => 0%Q
  | Some t =>
      let elapsed := (now - t)%Q in
      let remaining := (timeout (config b) - elapsed)%Q in
      if Qltb 0 remaining then remaining else 0%Q
  end.

(** [CircuitBreaker._transition_to_half_open]. *)
Definition _transition_to_half_open (b : CircuitBreaker) (now : Q) : CircuitBreaker :=
  {| config := config b;
     state := HALF_OPEN;
     failure_count := failure_count b;
     success_count := 0;
     last_failure_time := last_failure_time b;
     last_state_change := now |}.

(** [CircuitBreaker._on_success]. *)
Definition _on_success (b : CircuitBreaker) (now : Q) : CircuitBreaker :=
  match state b with
  | HALF_OPEN =>
      let sc := success_count b + 1 in
      if success_threshold (config b) <=? sc
      then {| config := config b;
              state := CLOSED;
              failure_count := 0;
              success_count := 0;
              last_failure_time := last_failure_time b;
              last_state_change := now |}
      else {| config := config b;
              state := HALF_OPEN;
              failure_count := failure_count b;
              success_count := sc;
              last_failure_time := last_failure_time b;
              last_state_change := last_state_change b |}
  | CLOSED =>
      {| config := config b;
         state := CLOSED;
         failure_count := 0;
         success_count := success_count b;
         last_failure_time := last_failure_time b;
         last_state_change := last_state_change b |}
  | OPEN => b
  end.

(** [CircuitBreaker._on_failure]. *)
Definition _on_failure (b : CircuitBreaker) (now : Q) : CircuitBreaker :=
  let fc := failure_count b + 1 in
  match state b with
  | HALF_OPEN =>
      {| config := config b;
         state := OPEN;
         failure_count := 0;
         success_count := 0;
         last_failure_time := Some now;
         last_state_change := now |}
  | CLOSED =>
      if failure_threshold (config b) <=? fc
      then {| config := config b;
              state := OPEN;
              failure_count := fc;
              success_count := 0;
              last_failure_time := Some now;
              last_state_change := now |}
      else {| config := config b;
              state := CLOSED;
              failure_count := fc;
              success_count := success_count b;
              last_failure_time := Some now;
              last_state_change := last_state_change b |}
  | OPEN =>
      {| config := config b;
         state := OPEN;
         failure_count := fc;
         success_count := success_count b;
         last_failure_time := Some now;
         last_state_change := last_state_change b |}
  end.

(** What surrounds the breaker: the clock, and a count of how many times the
    guarded operation has been entered (kept by the model, invisible to the
    code). *)
Record Env := {
  clock : Q;
  invocations : nat
}.

(** How one run of the guarded operation ends. *)
Inductive op_result (A : Type) :=
| Ok (v : A)
| Fail (e : exception).
Arguments Ok {A} v.
Arguments Fail {A} e.

(** The guarded operation [func]: entered at a clock reading, it ends with a
    value or an exception at a later clock reading. *)
Definition operation (A : Type) := Q -> op_result A * Q.

(** What [call] can raise: its own [CircuitOpenError], whose message holds
    [_time_until_retry], or the exception of the operation, unchanged. *)
Inductive Exn :=
| CircuitOpenError (retry_in : Q)
| OperationError (e : exception).

Inductive outcome (A : Type) :=
| Returned (v : A)
| Raised (e : Exn).
Arguments Returned {A} v.
Arguments Raised {A} e.

(** The first statement of [call]: [inl] is the breaker with which the call
    goes on, [inr] the exception raised at once. *)
Definition check_open (b : CircuitBreaker) (now : Q) : CircuitBreaker + Exn :=
  match state b with
  | OPEN =>
      if _should_attempt_reset b now
      then inl (_transition_to_half_open b now)
      else inr (CircuitOpenError (_time_until_retry b now))
  | _ => inl b
  end.

(** The [try] statement of [call]: [await func(...)], then [_on_success], or
    [_on_failure] in the [except] clause, which re-raises; an exception the
    clause does not match leaves through it untouched. *)
Definition attempt {A} (b : CircuitBreaker) (func : operation A) (w : Env)
  : CircuitBreaker * Env * outcome A :=
  let (r, t') := func (clock w) in
  let w' := {| clock := t'; invocations := S (invocations w) |} in
  match r with
  | Ok v => (_on_success b t', w', Returned v)
  | Fail e =>
      if expected_exception (config b) e
      then (_on_failure b t', w', Raised (OperationError e))
      else (b, w', Raised (OperationError e))
  end.

(** [CircuitBreaker.call]. *)
Definition call {A} (b : CircuitBreaker) (func : operation A) (w : Env)
  : CircuitBreaker * Env * outcome A :=
  match check_open b (clock w) with
  | inr e => (b, w, Raised e)
  | inl b1 => attempt b1 func w
  end.

(** The dictionary [get_state] returns. *)
Record StateView := {
  view_state : CircuitState;
  view_failure_count : Z;
  view_success_count : Z;
  view_last_failure_time : option Q;
  view_last_state_change : Q;
  view_time_until_retry : Q
}.

(** [CircuitBreaker.get_state]. *)
Definition get_state (b : CircuitBreaker) (now : Q) : StateView :=
  {| view_state := state b;
     view_failure_count := failure_count b;
     view_success_count := success_count b;
     view_last_failure_time := last_failure_time b;
     view_last_state_change := last_state_change b;
     view_time_until_retry :=
       match state b with
       | OPEN => _time_until_retry b now
       | _ => 0%Q
       end |}.

(** A caller that, for each item of [items], sleeps for the given time and
    then makes one call with the given operation, catching what it raises. *)
Fixpoint calls {A} (b : CircuitBreaker) (items : list (Q * operation A)) (w : Env)
  : CircuitBreaker * Env * list (outcome A) :=
  match items with
  | [] => (b, w, [])
  | (pause, func) :: rest =>
      let w0 := {| clock := (clock w + pause)%Q; invocations := invocations w |} in
      let '(b1, w1, o) := call b func w0 in
      let '(b2, w2, os) := calls b1 rest w1 in
      (b2, w2, o :: os)
  end.

(** How one outcome moves the tally of failures since the last success: a
    value returned clears it, an exception of the operation that the
    [except] clause matches adds one, anything else leaves it. *)
Definition tally {A} (cfg : CircuitBreakerConfig) (n : Z) (o : outcome A) : Z :=
  match o with
  | Returned _ => 0
  | Raised (OperationError e) => if expected_exception cfg e then n + 1 else n
  | Raised (CircuitOpenError _) => n
  end.

(** The number of matched failures at the end of a list of outcomes, back to
    the last value returned. *)
Definition failures_since_success {A} (cfg : CircuitBreakerConfig)
    (os : list (outcome A)) : Z :=
  fold_left (tally cfg) os 0.

End Breaker.

(** ** The rate and cost limiter and the agent it guards ([secure_agent.py]) *)

Module Secure.

(** The two module-level Prometheus counters; [inc()] adds one. *)
Record Metrics := {
  dow_attempts_blocked : nat;
  rate_limit_exceeded : nat
}.

Definition no_metrics : Metrics :=
  {| dow_attempts_blocked := 0; rate_limit_exceeded := 0 |}.

(** The fields of a [RateLimiter] instance. *)
Record RateLimiter := {
  max_requests_per_minute : Z;
  max_cost_per_hour : Q;
  request_timestamps : list Q;
  hourly_costs : list (Q * Q)
}.

(** [RateLimiter.__init__]. *)
Definition new_limiter (max_requests : Z) (max_cost : Q) : RateLimiter :=
  {| max_requests_per_minute := max_requests;
     max_cost_per_hour := max_cost;
     request_timestamps := [];
     hourly_costs := [] |}.

(** The comprehension of [allow_request]:
    [[ts for ts in self.request_timestamps if ts > cutoff]]. *)
Definition prune_requests (cutoff : Q) (l : list Q) : list Q :=
  filter (fun ts => Qltb cutoff ts) l.

(** The comprehension of [record_cost]:
    [[(ts, c) for ts, c in self.hourly_costs if ts > cutoff]]. *)
Definition prune_costs (cutoff : Q) (l : list (Q * Q)) : list (Q * Q) :=
  filter (fun p => Qltb cutoff (fst p)) l.

(** [RateLimiter.allow_request], at clock reading [current_time]. *)
Definition allow_request (rl : RateLimiter) (m : Metrics) (current_time : Q)
  : RateLimiter * Metrics * bool :=
  let cutoff := (current_time - 60)%Q in
  let kept := prune_requests cutoff (request_timestamps rl) in
  let rl1 := {| max_requests_per_minute := max_requests_per_minute rl;
                max_cost_per_hour := max_cost_per_hour rl;
                request_timestamps := kept;
                hourly_costs := hourly_costs rl |} in
  if max_requests_per_minute rl <=? Z.of_nat (length kept)
  then (rl1,
        {| dow_attempts_blocked := dow_attempts_blocked m;
           rate_limit_exceeded := S (rate_limit_exceeded m) |},
        false)
  else ({| max_requests_per_minute := max_requests_per_minute rl;
           max_cost_per_hour := max_cost_per_hour rl;
           request_timestamps := kept ++ [current_time];
           hourly_costs := hourly_costs rl |},
        m, true).

(** A caller that calls [allow_request] once at each clock reading of
    [times], in that order, and notes the answers. *)
Fixpoint allow_requests (rl : RateLimiter) (m : Metrics) (times : list Q)
  : RateLimiter * Metrics * list bool :=
  match times with
  | [] => (rl, m, [])
  | t :: rest =>
      let '(rl1, m1, ok) := allow_request rl m t in
      let '(rl2, m2, oks) := allow_requests rl1 m1 rest in
      (rl2, m2, ok :: oks)
  end.

(** The time stamps the comprehension of [allow_request] drops. *)
Definition expired_requests (cutoff : Q) (l : list Q) : list Q :=
  filter (fun ts => negb (Qltb cutoff ts)) l.

(** The requests the limiter can still take at clock reading [now]. *)
Definition capacity (rl : RateLimiter) (now : Q) : Z :=
  max_requests_per_minute rl
  - Z.of_nat (length (prune_requests (now - 60)%Q (request_timestamps rl))).

(** [RateLimiter.record_cost], at clock reading [current_time]. *)
Definition record_cost (rl : RateLimiter) (cost : Q) (current_time : Q) : RateLimiter :=
  let cutoff := (current_time - 3600)%Q in
  {| max_requests_per_minute := max_requests_per_minute rl;
     max_cost_per_hour := max_cost_per_hour rl;
     request_timestamps := request_timestamps rl;
     hourly_costs := prune_costs cutoff (hourly_costs rl) ++ [(current_time, cost)] |}.

(** Python's [sum]: from 0, left to right. *)
Definition sum (l : list Q) : Q := fold_left Qplus l 0%Q.

(** [RateLimiter.get_hourly_cost]: [sum(cost for _, cost in self.hourly_costs)].
    The method reads no clock. *)
Definition get_hourly_cost (rl : RateLimiter) : Q :=
  sum (map snd (hourly_costs rl)).

(** [RateLimiter.allow_cost].  The limiter is not modified. *)
Definition allow_cost (rl : RateLimiter) (m : Metrics) (estimated_cost : Q)
  : Metrics * bool :=
  let current_hourly_cost := get_hourly_cost rl in
  if Qltb (max_cost_per_hour rl) (current_hourly_cost + estimated_cost)%Q
  then ({| dow_attempts_blocked := S (dow_attempts_blocked m);
           rate_limit_exceeded := rate_limit_exceeded m |},
        false)
  else (m, true).

(** The dictionary [_execute_task] returns; [cost] may be absent
    ([result.get('cost', estimated_cost)]). *)
Record TaskResult := {
  status : string;
  cost : option Q
}.

(** One entry of [SecureAgent.audit_log]. *)
Record AuditEntry := {
  entry_timestamp : Q;
  event : string;
  entry_task : string;
  input_size : Z;
  result : option TaskResult;
  error : option string
}.

(** The fields of a [SecureAgent] instance. *)
Record SecureAgent := {
  rate_limiter : RateLimiter;
  audit_log : list AuditEntry
}.

(** [SecureAgent.__init__]. *)
Definition new_agent : SecureAgent :=
  {| rate_limiter := new_limiter 60 10; audit_log := [] |}.

(** Python's [len] of a string. *)
Definition len (s : string) : Z := Z.of_nat (String.length s).

(** The exception classes of the module. *)
Inductive Exn :=
| RateLimitExceeded
| CostLimitExceeded
| InputTooLarge
| SuspiciousInput
| UnauthorizedTask.

Inductive outcome :=
| Returned (r : TaskResult)
| Raised (e : Exn).

(** [SecureAgent._audit_log]; [kwargs] stands for [str(kwargs)]. *)
Definition _audit_log (ag : SecureAgent) (now : Q) (ev task kwargs : string)
    (res : option TaskResult) (err : option string) : SecureAgent :=
  {| rate_limiter := rate_limiter ag;
     audit_log := audit_log ag ++
       [ {| entry_timestamp := now;
            event := ev;
            entry_task := task;
            input_size := len kwargs;
            result := res;
            error := err |} ] |}.

(** [SecureAgent._estimate_cost]. *)
Definition _estimate_cost (task kwargs : string) : Q :=
  let input_size := inject_Z (len kwargs) in
  let estimated_input_tokens := (input_size * (75 # 100))%Q in
  let estimated_output_tokens := (estimated_input_tokens * 2)%Q in
  (estimated_input_tokens * (3 / 1000000) +
   estimated_output_tokens * (15 / 1000000))%Q.

Section Validation.

(** [zlib.compress] is a library function; the code uses only the length of
    what it returns.  The text is taken as ASCII, so that [len(text)] and
    [len(text.encode())] agree. *)
Variable zlib_compress : string -> string.

(** [SecureAgent._is_repetitive], with its default [threshold = 0.8]. *)
Definition _is_repetitive (text : string) : bool :=
  let threshold := (8 # 10)%Q in
  if len text <? 100 then false
  else
    let compressed := zlib_compress text in
    let compression_ratio :=
      (inject_Z (len compressed) / inject_Z (len text))%Q in
    Qltb compression_ratio (1 - threshold)%Q.

Definition allowed_tasks : list string :=
  ["fix_pod"; "analyze_logs"; "check_metrics"]%string.

(** [SecureAgent._validate_input]: [None] when it returns. *)
Definition _validate_input (task kwargs : string) (m : Metrics)
  : Metrics * option Exn :=
  let input_str := kwargs in
  if 100000 <? len input_str then (m, Some InputTooLarge)
  else if _is_repetitive input_str
  then ({| dow_attempts_blocked := S (dow_attempts_blocked m);
           rate_limit_exceeded := rate_limit_exceeded m |},
        Some SuspiciousInput)
  else if negb (existsb (String.eqb task) allowed_tasks)
  then (m, Some UnauthorizedTask)
  else (m, None).

(** [SecureAgent._execute_task], the simulated implementation: it sleeps
    for a tenth of a second and returns a fixed dictionary. *)
Definition _execute_task (task kwargs : string) (now : Q) : TaskResult * Q :=
  ({| status := "success"; cost := Some (1 / 1000)%Q |}, (now + 1 / 10)%Q).

(** [SecureAgent.execute], entered at clock reading [now].  [_execute_task]
    never raises, so the [except] clause of the [try] has no case here;
    [_validate_input] is outside the [try]. *)
Definition execute (ag : SecureAgent) (m : Metrics) (task kwargs : string) (now : Q)
  : SecureAgent * Metrics * outcome :=
  (* Security check 1: Rate limiting *)
  let '(rl1, m1, allowed) := allow_request (rate_limiter ag) m now in
  let ag1 := {| rate_limiter := rl1; audit_log := audit_log ag |} in
  if negb allowed
  then (_audit_log ag1 now "rate_limit_exceeded" task kwargs None None,
        m1, Raised RateLimitExceeded)
  else
    (* Security check 2: Cost budget *)
    let estimated_cost := _estimate_cost task kwargs in
    let (m2, within) := allow_cost rl1 m1 estimated_cost in
    if negb within
    then (_audit_log ag1 now "cost_limit_exceeded" task kwargs None None,
          m2, Raised CostLimitExceeded)
    else
      (* Security check 3: Input validation *)
      match _validate_input task kwargs m2 with
      | (m3, Some e) => (ag1, m3, Raised e)
      | (m3, None) =>
          let (res, t') := _execute_task task kwargs now in
          let actual_cost :=
            match cost res with Some c => c | None => estimated_cost end in
          let ag2 := {| rate_limiter := record_cost rl1 actual_cost t';
                        audit_log := audit_log ag1 |} in
          (_audit_log ag2 t' "success" task kwargs (Some res) None,
           m3, Returned res)
      end.

End Validation.

End Secure.

(** * Properties *)

(** ** Rational comparisons *)

Lemma Qltb_lt (x y : Q) : Qltb x y = true <-> (x < y)%Q.
Proof.
  unfold Qltb. rewrite negb_true_iff.
  split; intro H.
  - destruct (Qlt_le_dec x y) as [Hlt|Hle]; [exact Hlt|].
    apply Qle_bool_iff in Hle. congruence.
  - destruct (Qle_bool y x) eqn:E; [|reflexivity].
    apply Qle_bool_iff in E. lra.
Qed.

Lemma Qltb_ge (x y : Q) : Qltb x y = false <-> (y <= x)%Q.
Proof.
  unfold Qltb. rewrite negb_false_iff. apply Qle_bool_iff.
Qed.

Lemma Qle_bool_gt (x y : Q) : Qle_bool x y = false <-> (y < x)%Q.
Proof.
  split; intro H.
  - destruct (Qlt_le_dec y x) as [Hlt|Hle]; [exact Hlt|].
    apply Qle_bool_iff in Hle. congruence.
  - destruct (Qle_bool x y) eqn:E; [|reflexivity].
    apply Qle_bool_iff in E. lra.
Qed.

(** ** Loop detector *)

Section LoopFacts.
Import Loop.

(** Every call adds one to the iteration counter, however it ends. *)
Lemma check_action_counts (d : LoopDetector) a md t :
  iteration_count (fst (check_action d a md t)) = iteration_count d + 1.
Proof.
  unfold check_action; cbn.
  destruct (_ <? _); [reflexivity|].
  destruct (_check_repetition _ _ _); reflexivity.
Qed.

(** No call changes the configuration. *)
Lemma check_action_config (d : LoopDetector) a md t :
  config (fst (check_action d a md t)) = config d.
Proof.
  unfold check_action; cbn.
  destruct (_ <? _); [reflexivity|].
  destruct (_check_repetition _ _ _); reflexivity.
Qed.

(** The budget test alone decides whether [MaxIterationsExceeded] is raised. *)
Lemma check_action_budget (d : LoopDetector) a md t :
  is_MaxIterationsExceeded (snd (check_action d a md t))
  = (max_total_iterations (config d) <? iteration_count d + 1).
Proof.
  unfold check_action, _check_repetition; cbn.
  destruct (max_total_iterations (config d) <? iteration_count d + 1); [reflexivity|].
  destruct (max_action_repetitions (config d) <=? _); reflexivity.
Qed.

Lemma run_cons (d : LoopDetector) a t rest :
  run d ((a, t) :: rest) =
  (fst (run (fst (check_action d a None t)) rest),
   snd (check_action d a None t) :: snd (run (fst (check_action d a None t)) rest)).
Proof.
  cbn [run].
  destruct (check_action d a None t) as [d1 o]; cbn [fst snd].
  destruct (run d1 rest) as [d2 os]; reflexivity.
Qed.

Lemma run_app (d : LoopDetector) l1 l2 :
  run d (l1 ++ l2) =
  (fst (run (fst (run d l1)) l2), snd (run d l1) ++ snd (run (fst (run d l1)) l2)).
Proof.
  revert d; induction l1 as [|[a t] l1 IH]; intro d.
  - cbn. destruct (run d l2); reflexivity.
  - rewrite <- app_comm_cons, !run_cons, IH. reflexivity.
Qed.

Lemma run_length (d : LoopDetector) l : length (snd (run d l)) = length l.
Proof.
  revert d; induction l as [|[a t] l IH]; intro d; [reflexivity|].
  rewrite run_cons; cbn. now rewrite IH.
Qed.

(** How the [i]-th call of a run ends is decided, for the budget, by the
    counter at the start and [i] alone. *)
Lemma run_budget (l : list (string * Q)) (d : LoopDetector) (i : nat) o :
  nth_error (snd (run d l)) i = Some o ->
  is_MaxIterationsExceeded o
  = (max_total_iterations (config d) <? iteration_count d + Z.of_nat i + 1).
Proof.
  revert d i; induction l as [|[a t] l IH]; intros d i H.
  - destruct i; discriminate.
  - rewrite run_cons in H; cbn [snd] in H.
    destruct i as [|i]; cbn in H.
    + injection H as <-. rewrite check_action_budget. f_equal. lia.
    + apply IH in H. rewrite H, check_action_config, check_action_counts.
      f_equal. lia.
Qed.

End LoopFacts.

(** *** One action repeated inside the window *)

Section SameAction.
Import Loop.

Variable cfg : LoopDetectionConfig.
Variable X : string.
Variable lo : Q.

(** The clock readings that lie in one window starting at [lo]. *)
Definition in_window (t : Q) : Prop :=
  (lo <= t /\ t <= lo + inject_Z (repetition_window cfg))%Q.

(** Every recorded action is [X] and was recorded in that window. *)
Definition only_X (d : LoopDetector) : Prop :=
  config d = cfg /\
  Forall (fun r => action r = X /\ in_window (timestamp r)) (action_history d).

Definition record_X (t : Q) : ActionRecord :=
  {| action := X; timestamp := t; metadata := [] |}.

Lemma filter_all {A} (f : A -> bool) (l : list A) :
  Forall (fun x => f x = true) l -> filter f l = l.
Proof.
  induction 1 as [|x l Hx _ IH]; cbn; [reflexivity|].
  now rewrite Hx, IH.
Qed.

Lemma repetition_count_only_X (d : LoopDetector) (t : Q) (n : Z) :
  only_X d -> in_window t ->
  repetition_count
    (recent_actions
       {| config := config d; action_history := action_history d; iteration_count := n |}
       (t - inject_Z (repetition_window (config d)))) X
  = Z.of_nat (length (action_history d)).
Proof.
  intros [Hc Hall] [Hlo Hhi].
  unfold repetition_count, recent_actions; cbn. rewrite Hc.
  rewrite (filter_all _ (action_history d)).
  - rewrite filter_all; [reflexivity|].
    eapply Forall_impl; [|exact Hall]. intros r [Ha _]; cbn.
    rewrite Ha. apply String.eqb_refl.
  - eapply Forall_impl; [|exact Hall]. intros r [_ [Hr1 Hr2]]; cbn.
    apply Qle_bool_iff. lra.
Qed.

(** Below the repetition limit and inside the budget, the call returns and
    records the action. *)
Lemma check_action_X_returns (d : LoopDetector) (t : Q) :
  only_X d -> in_window t ->
  iteration_count d + 1 <= max_total_iterations cfg ->
  Z.of_nat (length (action_history d)) < max_action_repetitions cfg ->
  check_action d X None t =
  ({| config := cfg;
      action_history := action_history d ++ [record_X t];
      iteration_count := iteration_count d + 1 |}, Returned).
Proof.
  intros Hd Ht Hb Hr.
  unfold check_action, _check_repetition. cbn [config iteration_count action_history].
  rewrite (repetition_count_only_X d t _ Hd Ht).
  destruct Hd as [Hc _]. rewrite Hc.
  destruct (Z.ltb_spec (max_total_iterations cfg) (iteration_count d + 1)); [lia|].
  destruct (Z.leb_spec (max_action_repetitions cfg) (Z.of_nat (length (action_history d))));
    [lia|reflexivity].
Qed.

(** At the repetition limit and inside the budget, the call raises
    [LoopDetected] and records nothing. *)
Lemma check_action_X_raises (d : LoopDetector) (t : Q) :
  only_X d -> in_window t ->
  iteration_count d + 1 <= max_total_iterations cfg ->
  max_action_repetitions cfg <= Z.of_nat (length (action_history d)) ->
  check_action d X None t =
  ({| config := cfg;
      action_history := action_history d;
      iteration_count := iteration_count d + 1 |},
   Raised (LoopDetected X (Z.of_nat (length (action_history d))) (repetition_window cfg))).
Proof.
  intros Hd Ht Hb Hr.
  unfold check_action, _check_repetition. cbn [config iteration_count action_history].
  rewrite (repetition_count_only_X d t _ Hd Ht).
  destruct Hd as [Hc _]. rewrite Hc.
  destruct (Z.ltb_spec (max_total_iterations cfg) (iteration_count d + 1)); [lia|].
  destruct (Z.leb_spec (max_action_repetitions cfg) (Z.of_nat (length (action_history d))));
    [reflexivity|lia].
Qed.

(** As long as the history stays below the limit, every call returns. *)
Lemma run_X_returns (ts : list Q) (d : LoopDetector) :
  only_X d -> Forall in_window ts ->
  iteration_count d + Z.of_nat (length ts) <= max_total_iterations cfg ->
  Z.of_nat (length (action_history d) + length ts) <= max_action_repetitions cfg ->
  run d (map (pair X) ts) =
  ({| config := cfg;
      action_history := action_history d ++ map record_X ts;
      iteration_count := iteration_count d + Z.of_nat (length ts) |},
   repeat Returned (length ts)).
Proof.
  revert d; induction ts as [|t ts IH]; intros d Hd Hts Hb Hr.
  - cbn. rewrite app_nil_r, Z.add_0_r. destruct Hd as [<- _]. now destruct d.
  - apply Forall_cons_iff in Hts as [Ht Hts].
    cbn [map length] in *. rewrite run_cons.
    rewrite (check_action_X_returns d t Hd Ht) by lia.
    cbn [fst snd]. rewrite IH; cbn [config action_history iteration_count].
    + rewrite <- app_assoc. cbn [repeat app fst snd].
      replace (iteration_count d + 1 + Z.of_nat (length ts))
        with (iteration_count d + Z.of_nat (S (length ts))) by lia.
      reflexivity.
    + split; [reflexivity|]. destruct Hd as [_ Hall].
      apply Forall_app; split; [exact Hall|].
      constructor; [|constructor]. split; [reflexivity|exact Ht].
    + exact Hts.
    + lia.
    + rewrite length_app; cbn. lia.
Qed.

(** On a new detector with [max_action_repetitions = k]: of [k + 1] calls
    with the same action in one window, the first [k] return and call
    [k + 1] raises [LoopDetected], with a count of [k]. *)
Lemma loop_detected_after_k (k : nat) (ts : list Q) (t : Q) :
  max_action_repetitions cfg = Z.of_nat k ->
  Z.of_nat k < max_total_iterations cfg ->
  length ts = k -> Forall in_window ts -> in_window t ->
  snd (run (init (Some cfg)) (map (pair X) (ts ++ [t])))
  = repeat Returned k ++ [Raised (LoopDetected X (Z.of_nat k) (repetition_window cfg))].
Proof.
  intros Hk Hn Hlen Hts Ht.
  assert (H0 : only_X (init (Some cfg))) by (split; [reflexivity|constructor]).
  rewrite map_app, run_app.
  rewrite (run_X_returns ts _ H0 Hts); cbn [init iteration_count action_history length];
    try lia.
  cbn [fst snd map app]. rewrite run_cons.
  rewrite check_action_X_raises; cbn [config action_history iteration_count].
  - cbn [fst snd run]. rewrite length_map, Hlen. reflexivity.
  - split; [reflexivity|].
    apply Forall_forall. intros r Hr. apply in_map_iff in Hr as [u [<- Hu]].
    split; [reflexivity|]. cbn. now apply (proj1 (Forall_forall _ _) Hts).
  - exact Ht.
  - lia.
  - rewrite length_map. lia.
Qed.

End SameAction.

(** *** The claims about the loop detector *)

Section LoopClaims.
Import Loop.
Open Scope string_scope.
Open Scope Z_scope.

(** The configuration of the end-to-end scenario. *)
Definition scenario_config : LoopDetectionConfig :=
  {| max_action_repetitions := 3;
     max_total_iterations := 10;
     repetition_window := 60;
     debug := false |}.

(** C1.  With [max_action_repetitions = 3], [max_total_iterations = 10] and a
    window of 60 seconds, the five calls "check", "restart", "check",
    "restart", "restart", one second apart, all return: the fifth call, the
    third "restart", raises nothing, and [LoopDetected] comes only with a
    fourth "restart".  Likewise three calls "restart_pod" on a detector with
    [max_action_repetitions = 3] all return, where the unit test
    [test_detects_exact_repetition] expects the third to raise. *)
Theorem C1_third_repetition_not_detected :
  snd (run (init (Some scenario_config))
         [("check", 0%Q); ("restart", 1%Q); ("check", 2%Q);
          ("restart", 3%Q); ("restart", 4%Q)])
  = [Returned; Returned; Returned; Returned; Returned]
  /\ snd (run (init (Some scenario_config))
         [("check", 0%Q); ("restart", 1%Q); ("check", 2%Q);
          ("restart", 3%Q); ("restart", 4%Q); ("restart", 5%Q)])
  = [Returned; Returned; Returned; Returned; Returned;
     Raised (LoopDetected "restart" 3 60)]
  /\ snd (run (init (Some {| max_action_repetitions := 3;
                             max_total_iterations := 20;
                             repetition_window := 60;
                             debug := false |}))
         [("restart_pod", 0%Q); ("restart_pod", 0%Q); ("restart_pod", 0%Q)])
  = [Returned; Returned; Returned].
Proof.
  repeat split; vm_compute; reflexivity.
Qed.

(** C5.  On a new detector with [max_total_iterations = n], whatever the
    actions and clock readings of [n + 1] calls: each of the first [n] calls
    passes the budget test (it does not raise [MaxIterationsExceeded]) and
    call [n + 1] raises [MaxIterationsExceeded].  The budget test comes
    first: a call on a detector whose counter would pass the limit raises
    [MaxIterationsExceeded] whatever the history holds, also where
    [_check_repetition] would raise. *)
Theorem C5_budget_checked_first (cfg : LoopDetectionConfig) (n : nat)
    (calls : list (string * Q)) :
  max_total_iterations cfg = Z.of_nat n ->
  length calls = S n ->
  (forall i, (i < n)%nat ->
     exists o, nth_error (snd (run (init (Some cfg)) calls)) i = Some o
               /\ is_MaxIterationsExceeded o = false)
  /\ nth_error (snd (run (init (Some cfg)) calls)) n
     = Some (Raised (MaxIterationsExceeded (Z.of_nat n)))
  /\ (forall d a md t e,
        max_total_iterations (config d) < iteration_count d + 1 ->
        _check_repetition
          {| config := config d; action_history := action_history d;
             iteration_count := iteration_count d + 1 |} a t = Some e ->
        snd (check_action d a md t)
        = Raised (MaxIterationsExceeded (max_total_iterations (config d)))).
Proof.
  intros Hn Hlen.
  assert (Hex : forall i, (i < S n)%nat ->
            exists o, nth_error (snd (run (init (Some cfg)) calls)) i = Some o).
  { intros i Hi.
    destruct (nth_error (snd (run (init (Some cfg)) calls)) i) as [o|] eqn:E;
      [now exists o|].
    apply nth_error_None in E. rewrite run_length in E. lia. }
  split; [|split].
  - intros i Hi. destruct (Hex i) as [o Ho]; [lia|].
    exists o; split; [exact Ho|].
    rewrite (run_budget _ _ _ _ Ho); cbn [init config iteration_count].
    rewrite Hn. apply Z.ltb_ge. lia.
  - destruct (Hex n) as [o Ho]; [lia|]. rewrite Ho. f_equal.
    pose proof (run_budget _ _ _ _ Ho) as Hb.
    cbn [init config iteration_count] in Hb. rewrite Hn in Hb.
    replace (Z.of_nat n <? 0 + Z.of_nat n + 1) with true in Hb
      by (symmetry; apply Z.ltb_lt; lia).
    clear Hex Hlen.
    assert (Hl : forall l d i, nth_error (snd (run d l)) i = Some o ->
              is_MaxIterationsExceeded o = true ->
              o = Raised (MaxIterationsExceeded (max_total_iterations (config d)))).
    { induction l as [|[a t] l IH]; intros d i H Hm.
      - destruct i; discriminate.
      - rewrite run_cons in H; cbn [snd] in H. destruct i as [|i]; cbn in H.
        + injection H as <-. revert Hm.
          unfold check_action, _check_repetition; cbn.
          destruct (_ <? _); [reflexivity|].
          destruct (_ <=? _); discriminate.
        + rewrite (IH _ _ H Hm), check_action_config. reflexivity. }
    rewrite (Hl _ _ _ Ho Hb). cbn. now rewrite Hn.
  - intros d a md t e Hlt _. unfold check_action; cbn.
    destruct (Z.ltb_spec (max_total_iterations (config d)) (iteration_count d + 1));
      [reflexivity|lia].
Qed.

(** C5 at [n = 2], with three calls of the same action at the same time. *)
Lemma C5_budget_checked_first_witness :
  nth_error
    (snd (run (init (Some {| max_action_repetitions := 1;
                             max_total_iterations := 2;
                             repetition_window := 60;
                             debug := false |}))
            [("a", 0%Q); ("a", 0%Q); ("a", 0%Q)])) 2
  = Some (Raised (MaxIterationsExceeded 2)).
Proof.
  exact (proj1 (proj2
    (C5_budget_checked_first
       {| max_action_repetitions := 1; max_total_iterations := 2;
          repetition_window := 60; debug := false |}
       2 [("a", 0%Q); ("a", 0%Q); ("a", 0%Q)] eq_refl eq_refl))).
Defined.

(** C9.  A call that raises [LoopDetected] leaves the history as it was and
    the counter one higher, so [get_stats] reports a [total_iterations] that
    counts the rejected call and a [total_actions] that does not. *)
Theorem C9_loop_detected_counts_rejected_call (d : LoopDetector) (a : string)
    (md : option Metadata) (t : Q) :
  is_LoopDetected (snd (check_action d a md t)) = true ->
  action_history (fst (check_action d a md t)) = action_history d
  /\ iteration_count (fst (check_action d a md t)) = iteration_count d + 1
  /\ total_iterations (get_stats (fst (check_action d a md t)))
     = total_iterations (get_stats d) + 1
  /\ total_actions (get_stats (fst (check_action d a md t)))
     = total_actions (get_stats d).
Proof.
  unfold check_action; cbn.
  destruct (_ <? _); [discriminate|].
  destruct (_check_repetition _ _ _) as [e|]; [|discriminate].
  cbn. intros _. repeat split.
Qed.

(** C9 on the fourth "restart" of the scenario. *)
Lemma C9_loop_detected_counts_rejected_call_witness :
  let d := fst (run (init (Some scenario_config))
                  [("restart", 0%Q); ("restart", 1%Q); ("restart", 2%Q)]) in
  iteration_count (fst (check_action d "restart" None 3%Q)) = 4
  /\ length (action_history (fst (check_action d "restart" None 3%Q))) = 3%nat.
Proof.
  intro d.
  pose proof (C9_loop_detected_counts_rejected_call d "restart" None 3%Q eq_refl)
    as [Hh [Hc _]].
  split.
  - rewrite Hc. reflexivity.
  - rewrite Hh. reflexivity.
Defined.

End LoopClaims.

(** ** Circuit breaker *)

Section BreakerFacts.
Import Breaker.
Context {A : Type}.

(** No method changes the configuration. *)
Lemma call_config (b : CircuitBreaker) (func : operation A) (w : Env) :
  config (fst (fst (call b func w))) = config b.
Proof.
  unfold call, check_open, attempt, _on_success, _on_failure, _transition_to_half_open.
  destruct (state b) eqn:Es; cbn [config state].
  - destruct (func (clock w)) as [[v|e] t']; cbn; rewrite ?Es; cbn; try reflexivity.
    destruct (expected_exception _ _); cbn; rewrite ?Es; try reflexivity.
    destruct (_ <=? _); reflexivity.
  - destruct (_should_attempt_reset b (clock w)); [|reflexivity].
    cbn. destruct (func (clock w)) as [[v|e] t']; cbn.
    + destruct (_ <=? _); reflexivity.
    + destruct (expected_exception _ _); reflexivity.
  - destruct (func (clock w)) as [[v|e] t']; cbn; rewrite ?Es; cbn.
    + destruct (_ <=? _); reflexivity.
    + destruct (expected_exception _ _); cbn; rewrite ?Es; reflexivity.
Qed.

(** The breaker is closed only with a failure count that equals the tally of
    the outcomes so far and has not reached the threshold (or is zero). *)
Definition tallied (cfg : CircuitBreakerConfig) (b : CircuitBreaker)
    (os : list (outcome A)) : Prop :=
  config b = cfg /\
  (state b = CLOSED ->
   failure_count b = failures_since_success cfg os /\
   (failure_count b = 0 \/ 0 <= failure_count b < failure_threshold cfg)).

Lemma tally_snoc (cfg : CircuitBreakerConfig) (os : list (outcome A)) (o : outcome A) :
  failures_since_success cfg (os ++ [o])
  = tally cfg (failures_since_success cfg os) o.
Proof.
  unfold failures_since_success. now rewrite fold_left_app.
Qed.

(** One call keeps [tallied]. *)
Lemma call_tallied (cfg : CircuitBreakerConfig) (b : CircuitBreaker)
    (os : list (outcome A)) (func : operation A) (w : Env) :
  tallied cfg b os ->
  tallied cfg (fst (fst (call b func w))) (os ++ [snd (call b func w)]).
Proof.
  intros [Hc Hb]. split; [now rewrite call_config|].
  rewrite tally_snoc. revert Hb.
  unfold call, check_open, attempt, _on_success, _on_failure, _transition_to_half_open.
  destruct (state b) eqn:Es; cbn [config state].
  - intros Hb. destruct (Hb eq_refl) as [Hf Hlt]. rewrite <- Hf.
    destruct (func (clock w)) as [[v|e] t']; cbn; rewrite ?Es; cbn.
    + intros _. split; [reflexivity|now left].
    + rewrite Hc.
      destruct (expected_exception cfg e) eqn:Ee; cbn; rewrite ?Es; cbn.
      * destruct (Z.leb_spec (failure_threshold cfg) (failure_count b + 1));
          cbn; [discriminate|].
        rewrite Ee. intros _. split; [reflexivity|right; lia].
      * rewrite Ee. intros _. split; [reflexivity|exact Hlt].
  - intros _. destruct (_should_attempt_reset b (clock w)); [|cbn; rewrite Es; discriminate].
    cbn. destruct (func (clock w)) as [[v|e] t']; cbn.
    + destruct (_ <=? _); cbn; [|discriminate].
      intros _. split; [reflexivity|now left].
    + destruct (expected_exception _ _); cbn; discriminate.
  - intros _. destruct (func (clock w)) as [[v|e] t']; cbn; rewrite ?Es; cbn.
    + destruct (_ <=? _); cbn; [|discriminate].
      intros _. split; [reflexivity|now left].
    + destruct (expected_exception _ _); cbn; rewrite ?Es; discriminate.
Qed.

Lemma calls_cons (b : CircuitBreaker) pause (func : operation A) rest (w : Env) :
  calls b ((pause, func) :: rest) w =
  let r := call b func {| clock := (clock w + pause)%Q; invocations := invocations w |} in
  let r' := calls (fst (fst r)) rest (snd (fst r)) in
  (fst (fst r'), snd (fst r'), snd r :: snd r').
Proof.
  cbn [calls].
  destruct (call b func _) as [[b1 w1] o]; cbn [fst snd].
  destruct (calls b1 rest w1) as [[b2 w2] os]; reflexivity.
Qed.

(** A run of calls keeps [tallied]. *)
Lemma calls_tallied (cfg : CircuitBreakerConfig) (items : list (Q * operation A))
    (b : CircuitBreaker) (os : list (outcome A)) (w : Env) :
  tallied cfg b os ->
  tallied cfg (fst (fst (calls b items w))) (os ++ snd (calls b items w)).
Proof.
  revert b os w; induction items as [|[pause func] items IH]; intros b os w H.
  - cbn. now rewrite app_nil_r.
  - rewrite calls_cons; cbn [fst snd].
    set (w0 := {| clock := (clock w + pause)%Q; invocations := invocations w |}).
    pose proof (call_tallied cfg b os func w0 H) as H1.
    specialize (IH _ _ (snd (fst (call b func w0))) H1).
    now rewrite <- app_assoc in IH.
Qed.

End BreakerFacts.

(** *** The claims about the circuit breaker *)

Section BreakerClaims.
Import Breaker.
Open Scope string_scope.
Open Scope Z_scope.

(** The configuration of the demonstration in [circuit_breaker.py]. *)
Definition demo_config : CircuitBreakerConfig :=
  {| failure_threshold := 3;
     success_threshold := 2;
     timeout := 5;
     expected_exception := expected_exception default_config |}.

(** An operation that raises [ConnectionError] at once. *)
Definition unavailable : operation string :=
  fun t => (Fail "ConnectionError", t).

(** An operation that returns at once. *)
Definition available : operation string :=
  fun t => (Ok "Success!", t).

(** An operation that raises an exception outside [Exception]. *)
Definition cancelled : operation string :=
  fun t => (Fail "CancelledError", t).

Definition start : Env := {| clock := 0; invocations := 0 |}.

(** A failure that opens a closed breaker leaves the failure count at the
    value that reached the threshold; only the success count is cleared. *)
Lemma on_failure_opening (b : CircuitBreaker) (now : Q) :
  state b = CLOSED ->
  state (_on_failure b now) = OPEN ->
  failure_count (_on_failure b now) = failure_count b + 1
  /\ failure_threshold (config b) <= failure_count (_on_failure b now)
  /\ success_count (_on_failure b now) = 0.
Proof.
  unfold _on_failure. intros ->.
  destruct (Z.leb_spec (failure_threshold (config b)) (failure_count b + 1));
    cbn; [|discriminate].
  intros _. repeat split. assumption.
Qed.

(** C3.  With [failure_threshold = 3], three failing calls on a new breaker
    open it, and right after the third the breaker is [OPEN] with
    [success_count = 0] and [failure_count = 3], not 0.  A failure in
    [HALF_OPEN], the other way into [OPEN], does leave both counts at 0. *)
Theorem C3_failure_count_kept_on_opening :
  (let b := fst (fst (calls (init (Some demo_config) 0)
                        [(0%Q, unavailable); (1%Q, unavailable);
                         (1%Q, unavailable)] start)) in
   state b = OPEN /\ failure_count b = 3 /\ success_count b = 0)
  /\ (let b := fst (fst (calls (init (Some demo_config) 0)
                           [(0%Q, unavailable); (1%Q, unavailable);
                            (1%Q, unavailable); (5%Q, unavailable)] start)) in
      state b = OPEN /\ failure_count b = 0 /\ success_count b = 0).
Proof.
  split; vm_compute; repeat split.
Qed.

(** C6.  For a breaker that is [OPEN] with a last failure at [t0]: a call
    made less than [timeout] seconds after [t0] raises [CircuitOpenError]
    and changes neither the breaker nor the environment, so the operation
    is not entered; a call made [timeout] seconds or more after [t0] goes on
    as the [try] statement does from the breaker moved to [HALF_OPEN], and
    enters the operation once.  Reading the state moves nothing: the breaker
    is still [OPEN] until such a call is made. *)
Theorem C6_open_breaker_gate {A : Type} (b : CircuitBreaker) (func : operation A)
    (w : Env) (t0 : Q) :
  state b = OPEN ->
  last_failure_time b = Some t0 ->
  ((clock w - t0 < timeout (config b))%Q ->
     call b func w = (b, w, Raised (CircuitOpenError (_time_until_retry b (clock w)))))
  /\ ((timeout (config b) <= clock w - t0)%Q ->
     call b func w = attempt (_transition_to_half_open b (clock w)) func w
     /\ state (_transition_to_half_open b (clock w)) = HALF_OPEN
     /\ invocations (snd (fst (call b func w))) = S (invocations w))
  /\ (forall now, view_state (get_state b now) = OPEN).
Proof.
  intros Hs Ht. unfold call, check_open, _should_attempt_reset.
  rewrite Hs, Ht. repeat split.
  - intros Hlt. apply Qle_bool_gt in Hlt. now rewrite Hlt.
  - apply Qle_bool_iff in H. now rewrite H.
  - apply Qle_bool_iff in H. rewrite H.
    unfold attempt. destruct (func (clock w)) as [[v|e] t']; cbn.
    + reflexivity.
    + destruct (expected_exception (config b) e); reflexivity.
  - intros now. cbn. exact Hs.
Qed.

(** The breaker of the demonstration after its three failing calls, the
    last at clock reading 2. *)
Definition opened : CircuitBreaker :=
  fst (fst (calls (init (Some demo_config) 0)
              [(0%Q, unavailable); (1%Q, unavailable);
               (1%Q, unavailable)] start)).

(** C6 on the demonstration: a call at clock reading 3 is rejected, a call
    at clock reading 7 enters the operation. *)
Lemma C6_open_breaker_gate_witness :
  snd (call opened available {| clock := 3; invocations := 3 |})
    = Raised (CircuitOpenError (_time_until_retry opened 3))
  /\ invocations (snd (fst (call opened available {| clock := 7; invocations := 3 |})))
     = 4%nat.
Proof.
  split.
  - destruct (C6_open_breaker_gate opened available
                {| clock := 3; invocations := 3 |} 2 eq_refl eq_refl) as [H1 _].
    rewrite H1; [reflexivity|]. vm_compute. reflexivity.
  - destruct (C6_open_breaker_gate opened available
                {| clock := 7; invocations := 3 |} 2 eq_refl eq_refl) as [_ [H2 _]].
    destruct H2 as [_ [_ H2]]; [|exact H2].
    vm_compute. discriminate.
Defined.

(** C7.  In [CLOSED], a call whose operation returns leaves the breaker
    [CLOSED] with [failure_count = 0] and every other field as it was.
    Hence, on a breaker that starts [CLOSED] with no failure counted, after
    any run of calls: a call moves the breaker from [CLOSED] to [OPEN]
    exactly when it ends with an exception the [except] clause matches and
    the matched failures since the last call that returned, this one
    included, reach [failure_threshold]; their number is then
    [failure_threshold] (1 when the threshold is below 1), and it is the
    failure count the breaker shows. *)
Theorem C7_closed_success_clears_failures {A : Type} (b0 : CircuitBreaker)
    (items : list (Q * operation A)) (w0 : Env) (func : operation A) (w : Env) :
  state b0 = CLOSED ->
  failure_count b0 = 0 ->
  let b1 := fst (fst (calls b0 items w0)) in
  let os := snd (calls b0 items w0) in
  let b2 := fst (fst (call b1 func w)) in
  let o := snd (call b1 func w) in
  (forall v t', state b1 = CLOSED -> func (clock w) = (Ok v, t') ->
     o = Returned v
     /\ b2 = {| config := config b1;
                state := CLOSED;
                failure_count := 0;
                success_count := success_count b1;
                last_failure_time := last_failure_time b1;
                last_state_change := last_state_change b1 |})
  /\ (state b1 = CLOSED ->
      (state b2 = OPEN <->
       (exists e, o = Raised (OperationError e)
                  /\ expected_exception (config b0) e = true)
       /\ failure_threshold (config b0)
          <= failures_since_success (config b0) (os ++ [o])))
  /\ (state b1 = CLOSED -> state b2 = OPEN ->
      failures_since_success (config b0) (os ++ [o])
        = Z.max 1 (failure_threshold (config b0))
      /\ failure_count b2 = failures_since_success (config b0) (os ++ [o])).
Proof.
  intros Hs Hf b1 os b2 o.
  assert (H0 : tallied (config b0) b0 (@nil (outcome A))).
  { split; [reflexivity|]. intros _. split; [exact Hf|now left]. }
  pose proof (calls_tallied (config b0) items b0 [] w0 H0) as [Hc H1].
  cbn [app] in H1. fold b1 in Hc, H1. fold os in H1.
  assert (Hopen : state b1 = CLOSED ->
            (state b2 = OPEN ->
             (exists e, o = Raised (OperationError e)
                        /\ expected_exception (config b0) e = true)
             /\ failure_threshold (config b0) <= failure_count b1 + 1
             /\ failure_count b2 = failure_count b1 + 1
             /\ tally (config b0) (failure_count b1) o = failure_count b1 + 1)
            /\ ((exists e, o = Raised (OperationError e)
                           /\ expected_exception (config b0) e = true) ->
                failure_threshold (config b0) <= failure_count b1 + 1 ->
                state b2 = OPEN)).
  { intros Es. subst b2 o.
    unfold call, check_open, attempt, _on_success, _on_failure.
    rewrite Es. destruct (func (clock w)) as [[v|e] t']; cbn; rewrite ?Es, ?Hc; cbn.
    - split; [discriminate|]. intros [e [He _]]. discriminate.
    - destruct (expected_exception (config b0) e) eqn:Ee; cbn; rewrite ?Es, ?Ee; cbn.
      + destruct (Z.leb_spec (failure_threshold (config b0)) (failure_count b1 + 1));
          cbn.
        * split; [|reflexivity]. intros _.
          split; [exists e; now split|]. repeat split. assumption.
        * split; [discriminate|]. intros _ Hle. lia.
      + split; [discriminate|]. intros [e' [He' Hx]].
        injection He' as <-. congruence. }
  split; [|split].
  - intros v t' Es Hr. subst b2 o.
    unfold call, check_open, attempt, _on_success.
    rewrite Es, Hr. cbn. rewrite Es. split; reflexivity.
  - intros Es. destruct (H1 Es) as [Hfc _]. destruct (Hopen Es) as [Hto Hfrom].
    rewrite tally_snoc, <- Hfc. split.
    + intros Ho. destruct (Hto Ho) as [He [Hle [_ Ht]]].
      split; [exact He|]. rewrite Ht. exact Hle.
    + intros [He Hle]. apply Hfrom; [exact He|].
      destruct He as [e [-> Hx]]. cbn in Hle. now rewrite Hx in Hle.
  - intros Es Ho. destruct (H1 Es) as [Hfc Hlt]. destruct (Hopen Es) as [Hto _].
    destruct (Hto Ho) as [_ [Hle [Hf2 Ht]]].
    rewrite tally_snoc, <- Hfc, Ht. split; [lia|exact Hf2].
Qed.

(** C7 on the demonstration: two failures, a success, then three failures;
    the breaker is still closed after the fifth call and the sixth opens it. *)
Lemma C7_closed_success_clears_failures_witness :
  let items := [(0%Q, unavailable); (1%Q, unavailable); (1%Q, available);
                (1%Q, unavailable); (1%Q, unavailable)] in
  let b0 := init (Some demo_config) 0 in
  let b1 := fst (fst (calls b0 items start)) in
  let w := {| clock := 5; invocations := 5 |} in
  state b1 = CLOSED
  /\ state (fst (fst (call b1 unavailable w))) = OPEN
  /\ failures_since_success demo_config
       (snd (calls b0 items start) ++ [snd (call b1 unavailable w)]) = 3.
Proof.
  intros items b0 b1 w.
  pose proof (C7_closed_success_clears_failures b0 items start unavailable w
                eq_refl eq_refl) as [_ [_ H]].
  assert (Es : state b1 = CLOSED) by (vm_compute; reflexivity).
  assert (Eo : state (fst (fst (call b1 unavailable w))) = OPEN)
    by (vm_compute; reflexivity).
  split; [exact Es|]. split; [exact Eo|].
  exact (proj1 (H Es Eo)).
Defined.

(** C10.  When the call gets as far as the operation and the operation
    raises an exception that the [except] clause does not match, [call]
    raises that exception and the breaker is the one the operation was
    entered with: the breaker as it was before the call, or, when it was
    [OPEN], that breaker moved to [HALF_OPEN] by the first statement of
    [call]. *)
Theorem C10_unmatched_exception_leaves_breaker {A : Type} (b b1 : CircuitBreaker)
    (func : operation A) (w : Env) (e : exception) (t' : Q) :
  check_open b (clock w) = inl b1 ->
  func (clock w) = (Fail e, t') ->
  expected_exception (config b) e = false ->
  call b func w
    = (b1, {| clock := t'; invocations := S (invocations w) |},
       Raised (OperationError e))
  /\ (state b <> OPEN -> b1 = b)
  /\ (state b = OPEN -> b1 = _transition_to_half_open b (clock w)).
Proof.
  intros Hg Hr He.
  assert (Hc : config b1 = config b).
  { revert Hg. unfold check_open.
    destruct (state b); [intros [= <-]; reflexivity| |intros [= <-]; reflexivity].
    destruct (_should_attempt_reset b (clock w)); [|discriminate].
    intros [= <-]. reflexivity. }
  split; [|split].
  - unfold call. rewrite Hg. unfold attempt. rewrite Hr, Hc, He. reflexivity.
  - revert Hg. unfold check_open. destruct (state b); try congruence.
  - revert Hg. unfold check_open. intros Hg Hs. rewrite Hs in Hg.
    destruct (_should_attempt_reset b (clock w)); [|discriminate].
    now injection Hg as <-.
Qed.

(** C10 on the demonstration: a cancelled operation on the opened breaker,
    tried once the timeout has passed, leaves it [HALF_OPEN] with its
    counts. *)
Lemma C10_unmatched_exception_leaves_breaker_witness :
  fst (fst (call opened cancelled {| clock := 7; invocations := 3 |}))
    = _transition_to_half_open opened 7
  /\ snd (call opened cancelled {| clock := 7; invocations := 3 |})
    = Raised (OperationError "CancelledError").
Proof.
  pose proof (C10_unmatched_exception_leaves_breaker opened
                (_transition_to_half_open opened 7) cancelled
                {| clock := 7; invocations := 3 |} "CancelledError" 7
                eq_refl eq_refl eq_refl) as [H _].
  rewrite H. split; reflexivity.
Defined.

End BreakerClaims.

(** ** Rate and cost limiter *)

Section LimiterFacts.
Import Secure.

Lemma allow_requests_cons (rl : RateLimiter) (m : Metrics) t rest :
  allow_requests rl m (t :: rest) =
  let r := allow_request rl m t in
  let r' := allow_requests (fst (fst r)) (snd (fst r)) rest in
  (fst (fst r'), snd (fst r'), snd r :: snd r').
Proof.
  cbn [allow_requests].
  destruct (allow_request rl m t) as [[rl1 m1] ok]; cbn [fst snd].
  destruct (allow_requests rl1 m1 rest) as [[rl2 m2] oks]; reflexivity.
Qed.

Lemma allow_requests_app (rl : RateLimiter) (m : Metrics) l1 l2 :
  allow_requests rl m (l1 ++ l2) =
  let r := allow_requests rl m l1 in
  let r' := allow_requests (fst (fst r)) (snd (fst r)) l2 in
  (fst (fst r'), snd (fst r'), snd r ++ snd r').
Proof.
  revert rl m; induction l1 as [|t l1 IH]; intros rl m.
  - cbn. destruct (allow_requests rl m l2) as [[rl2 m2] oks]; reflexivity.
  - rewrite <- app_comm_cons, !allow_requests_cons. cbn zeta. rewrite IH. reflexivity.
Qed.

(** What [allow_request] does, by the size of the pruned window. *)
Lemma allow_request_spec (rl : RateLimiter) (m : Metrics) (now : Q) :
  let kept := prune_requests (now - 60)%Q (request_timestamps rl) in
  (max_requests_per_minute rl <= Z.of_nat (length kept) ->
   allow_request rl m now =
   ({| max_requests_per_minute := max_requests_per_minute rl;
       max_cost_per_hour := max_cost_per_hour rl;
       request_timestamps := kept;
       hourly_costs := hourly_costs rl |},
    {| dow_attempts_blocked := dow_attempts_blocked m;
       rate_limit_exceeded := S (rate_limit_exceeded m) |},
    false))
  /\ (Z.of_nat (length kept) < max_requests_per_minute rl ->
      allow_request rl m now =
      ({| max_requests_per_minute := max_requests_per_minute rl;
          max_cost_per_hour := max_cost_per_hour rl;
          request_timestamps := kept ++ [now];
          hourly_costs := hourly_costs rl |},
       m, true)).
Proof.
  intro kept. unfold allow_request. fold kept.
  destruct (Z.leb_spec (max_requests_per_minute rl) (Z.of_nat (length kept)));
    split; intro; try lia; reflexivity.
Qed.

(** The pruned window holds the time stamps of the last 60 seconds and no
    other. *)
Lemma prune_requests_In (cutoff t : Q) (l : list Q) :
  In t (prune_requests cutoff l) <-> In t l /\ Qltb cutoff t = true.
Proof.
  unfold prune_requests. apply filter_In.
Qed.

(** Every time stamp is either kept or expired. *)
Lemma prune_requests_partition (cutoff : Q) (l : list Q) :
  (length (prune_requests cutoff l) + length (expired_requests cutoff l))%nat
  = length l.
Proof.
  unfold prune_requests, expired_requests.
  induction l as [|t l IH]; [reflexivity|].
  cbn. destruct (Qltb cutoff t); cbn; lia.
Qed.

(** Time stamps taken within one second of each other are all kept. *)
Lemma prune_requests_burst (t0 now : Q) (l : list Q) :
  (t0 <= now <= t0 + 1)%Q ->
  Forall (fun t => (t0 <= t <= t0 + 1)%Q) l ->
  prune_requests (now - 60)%Q l = l.
Proof.
  intros Hn Hl. unfold prune_requests. apply filter_all.
  eapply Forall_impl; [|exact Hl]. intros t [Ht1 Ht2].
  destruct Hn as [Hn1 Hn2]. apply Qltb_lt. lra.
Qed.

(** Within one second, every call is allowed while the window has room. *)
Lemma allow_requests_burst (t0 : Q) (times : list Q) (rl : RateLimiter) (m : Metrics) :
  Forall (fun t => (t0 <= t <= t0 + 1)%Q) (request_timestamps rl) ->
  Forall (fun t => (t0 <= t <= t0 + 1)%Q) times ->
  Z.of_nat (length (request_timestamps rl) + length times)
    <= max_requests_per_minute rl ->
  allow_requests rl m times =
  ({| max_requests_per_minute := max_requests_per_minute rl;
      max_cost_per_hour := max_cost_per_hour rl;
      request_timestamps := request_timestamps rl ++ times;
      hourly_costs := hourly_costs rl |},
   m, repeat true (length times)).
Proof.
  revert rl m; induction times as [|t times IH]; intros rl m Hrl Hts Hle.
  - cbn. rewrite app_nil_r. now destruct rl.
  - apply Forall_cons_iff in Hts as [Ht Hts].
    rewrite allow_requests_cons. cbn zeta.
    destruct (allow_request_spec rl m t) as [_ Hok].
    rewrite (prune_requests_burst t0 t _ Ht Hrl) in Hok.
    cbn [length] in Hle. rewrite Hok by lia. cbn [fst snd].
    rewrite IH; cbn [request_timestamps max_requests_per_minute max_cost_per_hour
                       hourly_costs].
    + rewrite <- app_assoc. reflexivity.
    + apply Forall_app; split; [exact Hrl|]. constructor; [exact Ht|constructor].
    + exact Hts.
    + rewrite length_app; cbn. lia.
Qed.

End LimiterFacts.

(** *** The claims about the limiter and the agent *)

Section SecureClaims.
Import Secure.

(** C8.  [allow_request] first prunes the time stamps to those of the last
    60 seconds; when the pruned window already holds
    [max_requests_per_minute] entries it answers [false], counts a block and
    appends nothing; otherwise it appends the clock reading and answers
    [true].  On a new limiter with a maximum of 60, of 61 calls made within
    one second the first 60 answer [true] and the last [false].  The
    capacity left at a clock reading is the maximum less the entries held,
    plus one for each entry that has expired (one at most 60 seconds old
    no longer), and a call is allowed exactly when that capacity is
    positive. *)
Theorem C8_allow_request_sliding_window (rl : RateLimiter) (m : Metrics) (now : Q)
    (t0 : Q) (times : list Q) (last : Q) :
  length times = 60%nat ->
  Forall (fun t => (t0 <= t <= t0 + 1)%Q) (times ++ [last]) ->
  (let kept := prune_requests (now - 60)%Q (request_timestamps rl) in
   (forall t, In t kept <-> In t (request_timestamps rl) /\ (now - 60 < t)%Q)
   /\ (max_requests_per_minute rl <= Z.of_nat (length kept) ->
       allow_request rl m now =
       ({| max_requests_per_minute := max_requests_per_minute rl;
           max_cost_per_hour := max_cost_per_hour rl;
           request_timestamps := kept;
           hourly_costs := hourly_costs rl |},
        {| dow_attempts_blocked := dow_attempts_blocked m;
           rate_limit_exceeded := S (rate_limit_exceeded m) |},
        false))
   /\ (Z.of_nat (length kept) < max_requests_per_minute rl ->
       allow_request rl m now =
       ({| max_requests_per_minute := max_requests_per_minute rl;
           max_cost_per_hour := max_cost_per_hour rl;
           request_timestamps := kept ++ [now];
           hourly_costs := hourly_costs rl |},
        m, true)))
  /\ snd (allow_requests (new_limiter 60 (max_cost_per_hour rl)) m (times ++ [last]))
     = repeat true 60 ++ [false]
  /\ capacity rl now
     = max_requests_per_minute rl - Z.of_nat (length (request_timestamps rl))
       + Z.of_nat (length (expired_requests (now - 60)%Q (request_timestamps rl)))
  /\ (forall t, In t (expired_requests (now - 60)%Q (request_timestamps rl))
                <-> In t (request_timestamps rl) /\ (t <= now - 60)%Q)
  /\ (snd (allow_request rl m now) = true <-> 0 < capacity rl now).
Proof.
  intros Hlen Hall.
  split; [|split; [|split; [|split]]].
  - intro kept. split; [|exact (allow_request_spec rl m now)].
    intro t. unfold kept. rewrite prune_requests_In, Qltb_lt. reflexivity.
  - apply Forall_app in Hall as [Hts Hlast].
    apply Forall_cons_iff in Hlast as [Hlast _].
    rewrite allow_requests_app. cbn zeta. cbn [snd].
    rewrite (allow_requests_burst t0 times); cbn [new_limiter request_timestamps
      max_requests_per_minute max_cost_per_hour hourly_costs length app fst snd];
      [|constructor|exact Hts|lia].
    rewrite Hlen. f_equal.
    rewrite allow_requests_cons. cbn zeta. cbn [snd allow_requests].
    destruct (allow_request_spec
                {| max_requests_per_minute := 60;
                   max_cost_per_hour := max_cost_per_hour rl;
                   request_timestamps := times;
                   hourly_costs := [] |} m last) as [Hno _].
    cbn [request_timestamps max_requests_per_minute] in Hno.
    rewrite (prune_requests_burst t0 last _ Hlast Hts) in Hno.
    rewrite Hno by lia. reflexivity.
  - unfold capacity.
    pose proof (prune_requests_partition (now - 60)%Q (request_timestamps rl)). lia.
  - intro t. unfold expired_requests. rewrite filter_In, negb_true_iff, Qltb_ge.
    reflexivity.
  - unfold capacity.
    destruct (allow_request_spec rl m now) as [Hno Hyes].
    destruct (Z.le_gt_cases (max_requests_per_minute rl)
                (Z.of_nat (length (prune_requests (now - 60)%Q (request_timestamps rl)))))
      as [Hle|Hgt].
    + rewrite (Hno Hle); cbn. split; [discriminate|lia].
    + rewrite (Hyes Hgt); cbn. split; [lia|reflexivity].
Qed.

(** C8 with 60 calls at clock reading 0 and one more at clock reading 1. *)
Lemma C8_allow_request_sliding_window_witness :
  snd (allow_requests (new_limiter 60 10) no_metrics (repeat 0%Q 60 ++ [1%Q]))
  = repeat true 60 ++ [false].
Proof.
  refine (proj1 (proj2
    (C8_allow_request_sliding_window (new_limiter 60 10) no_metrics 0 0
       (repeat 0%Q 60) 1 (repeat_length _ _) _))).
  apply Forall_app; split.
  - apply Forall_forall. intros t Ht. apply repeat_spec in Ht. subst t.
    split; discriminate.
  - constructor; [split; discriminate|constructor].
Defined.

(** What [allow_cost] decides on: the sum of all the entries held, whatever
    their age; the method takes no clock reading. *)
Lemma allow_cost_unpruned (rl : RateLimiter) (m : Metrics) (estimated_cost : Q) :
  snd (allow_cost rl m estimated_cost) = false
  <-> (max_cost_per_hour rl < sum (map snd (hourly_costs rl)) + estimated_cost)%Q.
Proof.
  unfold allow_cost, get_hourly_cost.
  destruct (Qltb _ _) eqn:E; cbn.
  - apply Qltb_lt in E. split; [intros _; exact E|reflexivity].
  - apply Qltb_ge in E. split; [discriminate|intro; lra].
Qed.

(** C2.  A limiter with a budget of 10 per hour records a cost of 10 at
    clock reading 0 and nothing afterwards.  Two hours later the entry is
    older than 3600 seconds, the pruned window is empty and its sum with an
    estimate of 1 is within the budget; yet [get_hourly_cost] still returns
    10 and [allow_cost 1] answers [false]: neither method prunes. *)
Theorem C2_stale_cost_still_counted :
  let rl := record_cost (new_limiter 60 10) 10 0 in
  prune_costs (7200 - 3600)%Q (hourly_costs rl) = []
  /\ Qle_bool (sum (map snd (prune_costs (7200 - 3600)%Q (hourly_costs rl))) + 1)
              (max_cost_per_hour rl) = true
  /\ get_hourly_cost rl = 10%Q
  /\ snd (allow_cost rl no_metrics 1) = false.
Proof.
  vm_compute. repeat split.
Qed.

(** The rendering of [kwargs] for [log_data = "x" * 500_000]. *)
Definition massive_input : string :=
  ("{'log_data': '" ++ str_mul "x" 500000 ++ "'}")%string.

(** A stand-in for [zlib.compress] that returns its input. *)
Definition no_compression (s : string) : string := s.

(** [execute] raises [e] when the rate limit lets the request through. *)
Lemma execute_after_rate_limit (zlib_compress : string -> string)
    (ag : SecureAgent) (m : Metrics) (task kwargs : string) (now : Q) :
  snd (allow_request (rate_limiter ag) m now) = true ->
  let rl1 := fst (fst (allow_request (rate_limiter ag) m now)) in
  let m1 := snd (fst (allow_request (rate_limiter ag) m now)) in
  snd (execute zlib_compress ag m task kwargs now) =
  if snd (allow_cost rl1 m1 (_estimate_cost task kwargs))
  then match snd (_validate_input zlib_compress task kwargs m1) with
       | Some e => Raised e
       | None => Returned (fst (_execute_task task kwargs now))
       end
  else Raised CostLimitExceeded.
Proof.
  unfold execute.
  destruct (allow_request (rate_limiter ag) m now) as [[rl1 m1] ok]; cbn [fst snd].
  intros ->. cbn [negb].
  unfold allow_cost. destruct (Qltb _ _); cbn [fst snd negb]; [reflexivity|].
  unfold _validate_input.
  destruct (100000 <? len kwargs); [reflexivity|].
  destruct (_is_repetitive zlib_compress kwargs); [reflexivity|].
  destruct (negb _); reflexivity.
Qed.

(** C4, as the code has it.  [execute] checks the rate limit, then estimates
    the cost and checks the budget, and only then screens the input.  So,
    for a request the rate limit lets through: when the estimate does not
    fit the budget, [CostLimitExceeded] is raised whatever the input screen
    would say; and [InputTooLarge] or [SuspiciousInput] is raised exactly
    when the estimate fits the budget and the screen rejects the input with
    that exception. *)
Theorem C4_cost_budget_before_input_screen (zlib_compress : string -> string)
    (ag : SecureAgent) (m : Metrics) (task kwargs : string) (now : Q) :
  snd (allow_request (rate_limiter ag) m now) = true ->
  let rl1 := fst (fst (allow_request (rate_limiter ag) m now)) in
  let m1 := snd (fst (allow_request (rate_limiter ag) m now)) in
  (snd (allow_cost rl1 m1 (_estimate_cost task kwargs)) = false ->
   snd (execute zlib_compress ag m task kwargs now) = Raised CostLimitExceeded)
  /\ (forall e, e = InputTooLarge \/ e = SuspiciousInput ->
      (snd (execute zlib_compress ag m task kwargs now) = Raised e
       <-> snd (allow_cost rl1 m1 (_estimate_cost task kwargs)) = true
           /\ snd (_validate_input zlib_compress task kwargs m1) = Some e)).
Proof.
  intros Hok rl1 m1.
  rewrite (execute_after_rate_limit zlib_compress ag m task kwargs now Hok).
  fold rl1 m1.
  destruct (snd (allow_cost rl1 m1 (_estimate_cost task kwargs))).
  - split; [discriminate|]. intros e He.
    destruct (snd (_validate_input zlib_compress task kwargs m1)) as [e'|].
    + split; [intros [= ->]; now split|intros [_ [= ->]]; reflexivity].
    + split; [discriminate|intros [_ H]; discriminate].
  - split; [reflexivity|]. intros e [-> | ->]; split;
      try discriminate; intros [H _]; discriminate.
Qed.

(** C4 on a new agent and the massive input. *)
Lemma C4_cost_budget_before_input_screen_witness :
  snd (execute no_compression new_agent no_metrics "analyze_logs" massive_input 0)
  = Raised CostLimitExceeded.
Proof.
  refine (proj1 (C4_cost_budget_before_input_screen no_compression new_agent
                   no_metrics "analyze_logs" massive_input 0 eq_refl) _).
  vm_compute. reflexivity.
Defined.

(** The claim C4 fails on a new agent given the massive input: the input is
    over the size limit of the screen, which rejects it with
    [InputTooLarge], and its estimated cost is over the budget; [execute]
    raises [CostLimitExceeded], the exception of the budget check, and not
    the exception of the screen. *)
Lemma C4_screen_not_before_cost_check :
  snd (_validate_input no_compression "analyze_logs" massive_input no_metrics)
    = Some InputTooLarge
  /\ snd (allow_cost (rate_limiter new_agent) no_metrics
            (_estimate_cost "analyze_logs" massive_input)) = false
  /\ snd (execute no_compression new_agent no_metrics "analyze_logs" massive_input 0)
     = Raised CostLimitExceeded
  /\ snd (execute no_compression new_agent no_metrics "analyze_logs" massive_input 0)
     <> Raised InputTooLarge.
Proof.
  split; [|split; [|split]].
  - vm_compute. reflexivity.
  - vm_compute. reflexivity.
  - vm_compute. reflexivity.
  - vm_compute. discriminate.
Qed.

End SecureClaims.

(** * More of the code: callers of the detector and of the breaker *)

(** ** The monitored agent ([monitored_agent.py]) *)

Module Monitored.
Local Open Scope string_scope.
Local Open Scope Z_scope.

(** The configuration [MonitoredAgent.__init__] gives its detector. *)
Definition agent_config : Loop.LoopDetectionConfig :=
  {| Loop.max_action_repetitions := 3;
     Loop.max_total_iterations := 20;
     Loop.repetition_window := 60;
     Loop.debug := false |}.

(** The detector of a new [MonitoredAgent]. *)
Definition new_detector : Loop.LoopDetector := Loop.init (Some agent_config).

(** The dictionaries [_fix_pod] returns; the message is left out. *)
Record FixResult := {
  status : string;
  iterations : Z;
  tokens : option (Z * Z)
}.

(** How [_fix_pod] ends: with a dictionary, or with an exception of the
    detector, which it does not catch. *)
Inductive ending :=
| Finished (r : FixResult)
| Raises (e : Loop.Exn).

(** [MonitoredAgent._check_pod_status]: the simulation always answers
    [CrashLoopBackOff]. *)
Definition _check_pod_status : string := "CrashLoopBackOff".

(** The [while iteration < max_iterations] loop of [_fix_pod], with
    [remaining] turns left.  [clock k] is what [time.time()] returns at the
    [k]-th call of [check_action], [reads] is the number of calls made so
    far; the sleeps show only in the clock. *)
Fixpoint fix_pod_from (remaining : nat) (iteration : Z) (reads : nat)
    (clock : nat -> Q) (d : Loop.LoopDetector) : Loop.LoopDetector * ending :=
  match remaining with
  | O => (d, Finished {| status := "failed"; iterations := iteration;
                         tokens := None |})
  | S remaining' =>
      let iteration := iteration + 1 in
      match Loop.check_action d "check_pod_status" None (clock reads) with
      | (d1, Loop.Raised e) => (d1, Raises e)
      | (d1, Loop.Returned) =>
          if String.eqb _check_pod_status "Running"
          then (d1, Finished {| status := "success"; iterations := iteration;
                                tokens := Some (1000, 500) |})
          else
            match Loop.check_action d1 "restart_pod" None (clock (S reads)) with
            | (d2, Loop.Raised e) => (d2, Raises e)
            | (d2, Loop.Returned) =>
                fix_pod_from remaining' iteration (S (S reads)) clock d2
            end
      end
  end.

(** [MonitoredAgent._fix_pod]: [max_iterations = 10]. *)
Definition _fix_pod (clock : nat -> Q) (d : Loop.LoopDetector)
  : Loop.LoopDetector * ending :=
  fix_pod_from 10 0 0 clock d.

End Monitored.

(** ** The example agent with loop detection ([examples/fixed_loop.py]) *)

Module FixedLoop.
Local Open Scope string_scope.
Local Open Scope Z_scope.

(** The configuration [fix_pod_with_detection] gives its detector. *)
Definition example_config : Loop.LoopDetectionConfig :=
  {| Loop.max_action_repetitions := 3;
     Loop.max_total_iterations := 10;
     Loop.repetition_window := 60;
     Loop.debug := true |}.

(** How [fix_pod_with_detection] ends: the pod runs, or one of the two
    [except] clauses alerts the humans. *)
Inductive ending :=
| PodRunning
| LoopAlert (e : Loop.Exn)
| BudgetAlert (e : Loop.Exn).

(** The [except] clauses. *)
Definition alert (e : Loop.Exn) : ending :=
  match e with
  | Loop.LoopDetected _ _ _ => LoopAlert e
  | Loop.MaxIterationsExceeded _ => BudgetAlert e
  end.

(** [check_pod_status]: the simulation always answers [CrashLoopBackOff]. *)
Definition check_pod_status : string := "CrashLoopBackOff".

(** The [while True] loop of [fix_pod_with_detection], cut after [turns]
    turns ([None] when they run out).  [clock] and [reads] are as in
    [Monitored.fix_pod_from]; every call carries the metadata
    [{'pod': pod_name}]. *)
Fixpoint loop (turns : nat) (reads : nat) (clock : nat -> Q) (pod_name : string)
    (d : Loop.LoopDetector) : Loop.LoopDetector * option ending :=
  match turns with
  | O => (d, None)
  | S turns' =>
      let md := Some [("pod"%string, pod_name)] in
      match Loop.check_action d "check_pod_status" md (clock reads) with
      | (d1, Loop.Raised e) => (d1, Some (alert e))
      | (d1, Loop.Returned) =>
          if String.eqb check_pod_status "CrashLoopBackOff"
          then
            match Loop.check_action d1 "restart_pod" md (clock (S reads)) with
            | (d2, Loop.Raised e) => (d2, Some (alert e))
            | (d2, Loop.Returned) =>
                match Loop.check_action d2 "check_pod_status" md
                        (clock (S (S reads))) with
                | (d3, Loop.Raised e) => (d3, Some (alert e))
                | (d3, Loop.Returned) =>
                    if String.eqb check_pod_status "Running"
                    then (d3, Some PodRunning)
                    else loop turns' (S (S (S reads))) clock pod_name d3
                end
            end
          else if String.eqb check_pod_status "Running"
          then (d1, Some PodRunning)
          else loop turns' (S reads) clock pod_name d1
      end
  end.

(** [fix_pod_with_detection], cut after [turns] turns of its loop. *)
Definition fix_pod_with_detection (turns : nat) (clock : nat -> Q) (pod_name : string)
  : Loop.LoopDetector * option ending :=
  loop turns 0 clock pod_name (Loop.init (Some example_config)).

End FixedLoop.

(** ** The flaky service and the demonstration ([circuit_breaker.py]) *)

Module Flaky.
Local Open Scope string_scope.
Local Open Scope Z_scope.

(** The fields of a [FlakyService] instance. *)
Record FlakyService := {
  calls : Z;
  failure_count : Z
}.

(** [FlakyService.__init__]. *)
Definition init (failures : Z) : FlakyService :=
  {| calls := 0; failure_count := failures |}.

(** [FlakyService.call]: the service after the call, and the exception
    raised or the number of the call, which is what the string returned is
    made of. *)
Definition call (svc : FlakyService) : FlakyService * Breaker.op_result Z :=
  let svc1 := {| calls := calls svc + 1; failure_count := failure_count svc |} in
  if calls svc1 <=? failure_count svc1
  then (svc1, Breaker.Fail "ConnectionError")
  else (svc1, Breaker.Ok (calls svc1)).

(** [service.call] as the operation handed to the breaker: it ends at the
    clock reading at which it is entered. *)
Definition as_operation (svc : FlakyService) : Breaker.operation Z :=
  fun now => (snd (call svc), now).

(** The loop of [demo_circuit_breaker]: one [breaker.call(service.call)] at
    each clock reading of [times], catching what is raised.  The service
    moves on when the breaker enters it, and only then. *)
Fixpoint attempts (svc : FlakyService) (b : Breaker.CircuitBreaker) (times : list Q)
  : FlakyService * Breaker.CircuitBreaker * list (Breaker.outcome Z) :=
  match times with
  | [] => (svc, b, [])
  | t :: rest =>
      let '(b1, w1, o) :=
        Breaker.call b (as_operation svc)
          {| Breaker.clock := t; Breaker.invocations := 0 |} in
      let svc1 := match Breaker.invocations w1 with
                  | O => svc
                  | S _ => fst (call svc)
                  end in
      let '(svc2, b2, os) := attempts svc1 b1 rest in
      (svc2, b2, o :: os)
  end.

End Flaky.

(** * Further properties of the code *)

(** ** Loop detector: what runs of calls keep *)

Section LoopRuns.
Import Loop.

(** Whether a call returned. *)
Definition returned (o : outcome) : bool :=
  match o with Returned => true | Raised _ => false end.

(** A call that returns appends one record, made of the action, the clock
    reading and the metadata given; a call that raises leaves the history. *)
Lemma check_action_history (d : LoopDetector) a md t :
  action_history (fst (check_action d a md t)) =
  action_history d ++
  (if returned (snd (check_action d a md t))
   then [ {| action := a; timestamp := t;
             metadata := match md with Some x => x | None => [] end |} ]
   else []).
Proof.
  unfold check_action; cbn.
  destruct (_ <? _); cbn; [now rewrite app_nil_r|].
  destruct (_check_repetition _ _ _); cbn; [now rewrite app_nil_r|reflexivity].
Qed.

(** A call returns only inside the budget. *)
Lemma check_action_returned_budget (d : LoopDetector) a md t :
  returned (snd (check_action d a md t)) = true ->
  iteration_count d + 1 <= max_total_iterations (config d).
Proof.
  unfold check_action; cbn.
  destruct (Z.ltb_spec (max_total_iterations (config d)) (iteration_count d + 1));
    cbn; [discriminate|]. intros _. assumption.
Qed.

Lemma run_invariant (calls : list (string * Q)) (d : LoopDetector) :
  Z.of_nat (length (action_history d)) <= iteration_count d ->
  Z.of_nat (length (action_history d)) <= Z.max 0 (max_total_iterations (config d)) ->
  let d' := fst (run d calls) in
  let os := snd (run d calls) in
  config d' = config d
  /\ iteration_count d' = iteration_count d + Z.of_nat (length calls)
  /\ length (action_history d')
     = (length (action_history d) + length (filter returned os))%nat
  /\ Z.of_nat (length (action_history d')) <= iteration_count d'
  /\ Z.of_nat (length (action_history d')) <= Z.max 0 (max_total_iterations (config d)).
Proof.
  revert d; induction calls as [|[a t] calls IH]; intros d H1 H2.
  - cbn. repeat split; try lia.
  - cbn zeta. rewrite run_cons. cbn [fst snd].
    pose proof (check_action_counts d a None t) as Hc.
    pose proof (check_action_config d a None t) as Hg.
    pose proof (check_action_history d a None t) as Hh.
    pose proof (check_action_returned_budget d a None t) as Hb.
    set (d1 := fst (check_action d a None t)) in *.
    set (o := snd (check_action d a None t)) in *.
    assert (Hl : length (action_history d1)
                 = (length (action_history d) + if returned o then 1 else 0)%nat).
    { rewrite Hh, length_app. destruct (returned o); reflexivity. }
    destruct (IH d1) as [I1 [I2 [I3 [I4 I5]]]].
    + rewrite Hl, Hc. destruct (returned o); lia.
    + rewrite Hl, Hg. destruct (returned o); [|lia].
      specialize (Hb eq_refl). lia.
    + rewrite Hg in I5. cbn [length filter].
      repeat split; try lia; try congruence.
      rewrite I3, Hl. destruct (returned o); cbn [length]; lia.
Qed.

(** X1.  On a new detector, after any run of calls: the counter is the
    number of calls made, the history holds one record for each call that
    returned, and the history is never longer than the counter nor than
    [max_total_iterations] (nor than 0 when that limit is negative); so
    [get_stats] reports [total_actions <= total_iterations]. *)
Theorem X1_history_within_budget (cfg : LoopDetectionConfig) (calls : list (string * Q)) :
  let d := fst (run (init (Some cfg)) calls) in
  let os := snd (run (init (Some cfg)) calls) in
  total_iterations (get_stats d) = Z.of_nat (length calls)
  /\ total_actions (get_stats d) = length (filter returned os)
  /\ Z.of_nat (total_actions (get_stats d)) <= total_iterations (get_stats d)
  /\ Z.of_nat (total_actions (get_stats d)) <= Z.max 0 (max_total_iterations cfg).
Proof.
  destruct (run_invariant calls (init (Some cfg))) as [_ [I2 [I3 [I4 I5]]]];
    cbn [init action_history iteration_count length config] in *; try lia.
  cbn zeta. unfold get_stats; cbn [total_iterations total_actions].
  repeat split; lia.
Qed.

(** X2.  Once a call has raised [MaxIterationsExceeded], every later call on
    the detector raises it too, whatever the action and the clock. *)
Theorem X2_budget_exhaustion_is_final (d : LoopDetector) a md t
    (calls : list (string * Q)) :
  is_MaxIterationsExceeded (snd (check_action d a md t)) = true ->
  Forall (fun o => is_MaxIterationsExceeded o = true)
         (snd (run (fst (check_action d a md t)) calls)).
Proof.
  rewrite check_action_budget. intros H. apply Z.ltb_lt in H.
  apply Forall_forall. intros o Ho.
  apply In_nth_error in Ho as [i Hi].
  rewrite (run_budget _ _ _ _ Hi), check_action_config, check_action_counts.
  apply Z.ltb_lt. lia.
Qed.

Lemma X2_budget_exhaustion_is_final_witness :
  Forall (fun o => is_MaxIterationsExceeded o = true)
    (snd (run (fst (check_action
                      {| config := default_config; action_history := [];
                         iteration_count := 20 |} "a"%string None 0%Q))
            [("b"%string, 100%Q); ("c"%string, 200%Q)])).
Proof.
  exact (X2_budget_exhaustion_is_final
           {| config := default_config; action_history := [];
              iteration_count := 20 |} "a"%string None 0%Q
           [("b"%string, 100%Q); ("c"%string, 200%Q)] eq_refl).
Defined.

End LoopRuns.

(** ** Loop detector: the repetition window, statistics and reset *)

Section LoopWindow.
Import Loop.

Lemma repetition_count_snoc (l : list ActionRecord) (r : ActionRecord) (cutoff : Q) a :
  Z.of_nat (length (filter (fun x => String.eqb (action x) a)
                      (filter (fun x => Qle_bool cutoff (timestamp x)) (l ++ [r]))))
  <= Z.of_nat (length (filter (fun x => String.eqb (action x) a)
                         (filter (fun x => Qle_bool cutoff (timestamp x)) l))) + 1.
Proof.
  rewrite !filter_app, length_app. cbn [filter].
  destruct (Qle_bool cutoff (timestamp r)); cbn [filter length]; [|lia].
  destruct (String.eqb (action r) a); cbn [length]; lia.
Qed.

(** X3.  A call returns only when fewer than [max_action_repetitions]
    records of its action lie in the window that ends at the call; so right
    after it returns, the new record counted, the window holds at most
    [max_action_repetitions] records of that action. *)
Theorem X3_window_never_over_limit (d : LoopDetector) a md t :
  returned (snd (check_action d a md t)) = true ->
  let cutoff := (t - inject_Z (repetition_window (config d)))%Q in
  repetition_count (recent_actions d cutoff) a < max_action_repetitions (config d)
  /\ repetition_count (recent_actions (fst (check_action d a md t)) cutoff) a
     <= max_action_repetitions (config d).
Proof.
  unfold check_action, _check_repetition, repetition_count, recent_actions.
  cbn [config action_history iteration_count].
  destruct (_ <? _); cbn [snd returned]; [discriminate|].
  match goal with |- context [?m <=? ?n] => destruct (Z.leb_spec m n) end;
    cbn [fst snd returned action_history]; [discriminate|].
  intros _. split; [assumption|].
  etransitivity; [apply repetition_count_snoc|]. lia.
Qed.

Lemma X3_window_never_over_limit_witness :
  repetition_count
    (recent_actions (fst (check_action (init None) "restart"%string None 5%Q))
       (5 - inject_Z 60)%Q) "restart"%string <= 3.
Proof.
  exact (proj2 (X3_window_never_over_limit (init None) "restart"%string None 5%Q
                  eq_refl)).
Defined.

(** A call returns when no record of its action lies in the window, the
    limit is at least 1 and the budget is not used up. *)
Lemma returns_without_recent_record (d : LoopDetector) a md t :
  Forall (fun r => action r = a ->
                   (timestamp r < t - inject_Z (repetition_window (config d)))%Q)
         (action_history d) ->
  0 < max_action_repetitions (config d) ->
  iteration_count d + 1 <= max_total_iterations (config d) ->
  snd (check_action d a md t) = Returned.
Proof.
  intros Hold Hmax Hb.
  assert (H0 : repetition_count
                 (recent_actions d (t - inject_Z (repetition_window (config d)))%Q) a = 0).
  { unfold repetition_count, recent_actions.
    induction Hold as [|r l Hr _ IH]; [reflexivity|].
    cbn [filter]. destruct (Qle_bool _ (timestamp r)) eqn:E; [|exact IH].
    cbn [filter]. destruct (String.eqb (action r) a) eqn:Ea; [|exact IH].
    apply String.eqb_eq in Ea. apply Qle_bool_iff in E. specialize (Hr Ea). lra. }
  unfold check_action, _check_repetition. cbn [config action_history iteration_count].
  destruct (Z.ltb_spec (max_total_iterations (config d)) (iteration_count d + 1)); [lia|].
  unfold recent_actions in *. cbn [action_history] in *. rewrite H0.
  destruct (Z.leb_spec (max_action_repetitions (config d)) 0); [lia|reflexivity].
Qed.

(** X4.  Records older than the window do not count: when every record of
    the action was made more than [repetition_window] seconds before the
    call, the limit is at least 1 and the budget is not used up, the call
    returns, however many such records there are. *)
Theorem X4_expired_records_do_not_count (d : LoopDetector) a md t :
  Forall (fun r => action r = a ->
                   (timestamp r < t - inject_Z (repetition_window (config d)))%Q)
         (action_history d) ->
  0 < max_action_repetitions (config d) ->
  iteration_count d + 1 <= max_total_iterations (config d) ->
  snd (check_action d a md t) = Returned.
Proof.
  exact (returns_without_recent_record d a md t).
Qed.

(** A detector that has recorded "restart_pod" three times at clock
    reading 0. *)
Definition three_restarts : LoopDetector :=
  fst (run (init None)
         [("restart_pod"%string, 0%Q); ("restart_pod"%string, 0%Q);
          ("restart_pod"%string, 0%Q)]).

Lemma X4_expired_records_do_not_count_witness :
  snd (check_action three_restarts "restart_pod"%string None 61%Q) = Returned
  /\ is_LoopDetected (snd (check_action three_restarts "restart_pod"%string None 60%Q))
     = true.
Proof.
  split; [|reflexivity].
  apply X4_expired_records_do_not_count.
  - repeat constructor.
  - reflexivity.
  - discriminate.
Defined.

(** X5.  [_get_recent_actions count] returns the actions at the end of the
    history, oldest first: [count] of them, or all when the history is
    shorter.  Asked for 0 actions it returns them all.  [get_stats] shows
    the last 10. *)
Theorem X5_recent_actions_are_the_last (d : LoopDetector) (count : nat) :
  (exists earlier,
     map action (action_history d) = earlier ++ _get_recent_actions d count)
  /\ length (_get_recent_actions d count)
     = match count with
       | O => length (action_history d)
       | _ => Nat.min count (length (action_history d))
       end
  /\ length (stats_recent_actions (get_stats d))
     = Nat.min 10 (length (action_history d)).
Proof.
  assert (Hlen : forall c, length (_get_recent_actions d c)
            = match c with
              | O => length (action_history d)
              | _ => Nat.min c (length (action_history d))
              end).
  { intro c. unfold _get_recent_actions. rewrite length_map.
    destruct (Nat.leb_spec c (length (action_history d))).
    - destruct c; [reflexivity|]. rewrite length_skipn. lia.
    - destruct c; [reflexivity|]. lia. }
  split; [|split; [apply Hlen|exact (Hlen 10%nat)]].
  unfold _get_recent_actions.
  destruct (count <=? length (action_history d))%nat; [|now exists []].
  destruct count; [now exists []|].
  exists (map action (firstn (length (action_history d) - S count) (action_history d))).
  now rewrite <- map_app, firstn_skipn.
Qed.

(** X6.  [unique_actions] counts each recorded action once: it is the
    length of a list without duplicates that has the recorded actions as its
    members; it is at most [total_actions], and 0 only for an empty
    history. *)
Theorem X6_unique_actions_counts_distinct (d : LoopDetector) :
  (exists l, NoDup l
             /\ (forall a, In a l <-> In a (map action (action_history d)))
             /\ unique_actions (get_stats d) = length l)
  /\ (unique_actions (get_stats d) <= total_actions (get_stats d))%nat
  /\ (unique_actions (get_stats d) = 0%nat <-> action_history d = []).
Proof.
  unfold get_stats; cbn [unique_actions total_actions].
  set (names := map action (action_history d)).
  split; [|split].
  - exists (nodup string_dec names).
    split; [apply NoDup_nodup|]. split; [|reflexivity].
    intro a. apply nodup_In.
  - rewrite <- (length_map action (action_history d)). fold names.
    apply NoDup_incl_length; [apply NoDup_nodup|].
    intros a Ha. now apply nodup_In in Ha.
  - split.
    + intro H. apply length_zero_iff_nil in H.
      destruct (action_history d) as [|r l]; [reflexivity|].
      assert (Hin : In (action r) (nodup string_dec names))
        by (apply nodup_In; left; reflexivity).
      rewrite H in Hin. contradiction.
    + intro H. subst names. rewrite H. reflexivity.
Qed.

(** X7.  [reset] gives back a detector that behaves as a new one with the
    same configuration: its statistics are empty and, with both limits at
    least 1, the next call returns, whatever was raised before. *)
Theorem X7_reset_starts_again (d : LoopDetector) a md t :
  1 <= max_total_iterations (config d) ->
  1 <= max_action_repetitions (config d) ->
  snd (check_action (reset d) a md t) = Returned
  /\ get_stats (reset d)
     = {| total_iterations := 0; unique_actions := 0; total_actions := 0;
          stats_recent_actions := [] |}
  /\ (forall calls, run (reset d) calls = run (init (Some (config d))) calls).
Proof.
  intros Hi Hr. split; [|split; reflexivity].
  apply returns_without_recent_record; cbn; [constructor|lia|lia].
Qed.

Lemma X7_reset_starts_again_witness :
  is_LoopDetected (snd (check_action three_restarts "restart_pod"%string None 1%Q))
    = true
  /\ snd (check_action (reset three_restarts) "restart_pod"%string None 1%Q)
     = Returned.
Proof.
  split; [reflexivity|].
  apply (X7_reset_starts_again three_restarts "restart_pod"%string None 1%Q);
    discriminate.
Defined.

(** A call never returns on a detector whose repetition limit is below 1,
    nor on one whose budget is below 1 and whose counter is not negative. *)
Lemma never_returns_without_limits (d : LoopDetector) a md t :
  max_action_repetitions (config d) <= 0
  \/ (max_total_iterations (config d) <= 0 /\ 0 <= iteration_count d) ->
  returned (snd (check_action d a md t)) = false.
Proof.
  intros H. unfold check_action, _check_repetition, repetition_count.
  cbn [config action_history iteration_count].
  destruct (Z.ltb_spec (max_total_iterations (config d)) (iteration_count d + 1));
    [reflexivity|].
  match goal with |- context [?m <=? ?n] => destruct (Z.leb_spec m n) end;
    [reflexivity|]. lia.
Qed.

(** X8.  A detector made with [max_action_repetitions] or
    [max_total_iterations] below 1 lets nothing through: no call of any run
    returns and the history stays empty. *)
Theorem X8_limits_below_one_reject_all (cfg : LoopDetectionConfig)
    (calls : list (string * Q)) :
  max_action_repetitions cfg <= 0 \/ max_total_iterations cfg <= 0 ->
  Forall (fun o => returned o = false) (snd (run (init (Some cfg)) calls))
  /\ action_history (fst (run (init (Some cfg)) calls)) = [].
Proof.
  intros H.
  assert (G : forall l d, config d = cfg -> 0 <= iteration_count d ->
            Forall (fun o => returned o = false) (snd (run d l))
            /\ action_history (fst (run d l)) = action_history d).
  { induction l as [|[a t] l IH]; intros d Hc Hi.
    - cbn. split; [constructor|reflexivity].
    - rewrite run_cons. cbn [fst snd].
      assert (Hr : returned (snd (check_action d a None t)) = false).
      { apply never_returns_without_limits. rewrite Hc. destruct H; [now left|right; lia]. }
      destruct (IH (fst (check_action d a None t))) as [I1 I2].
      + now rewrite check_action_config.
      + rewrite check_action_counts. lia.
      + split; [constructor; assumption|].
        rewrite I2, check_action_history, Hr. apply app_nil_r. }
  apply (G calls (init (Some cfg))); cbn; [reflexivity|lia].
Qed.

Lemma X8_limits_below_one_reject_all_witness :
  action_history
    (fst (run (init (Some {| max_action_repetitions := 0;
                             max_total_iterations := 20;
                             repetition_window := 60;
                             debug := false |}))
            [("check_logs"%string, 0%Q); ("restart_pod"%string, 1%Q)])) = [].
Proof.
  refine (proj2 (X8_limits_below_one_reject_all _ _ _)).
  left. discriminate.
Defined.

End LoopWindow.

(** ** Circuit breaker: single calls *)

Section BreakerCalls.
Import Breaker.
Context {A : Type}.

(** How a call ends, by what the operation did. *)
Lemma call_outcome_cases (b : CircuitBreaker) (func : operation A) (w : Env) :
  match snd (call b func w) with
  | Returned v =>
      fst (func (clock w)) = Ok v
      /\ snd (fst (call b func w))
         = {| clock := snd (func (clock w)); invocations := S (invocations w) |}
  | Raised (OperationError e) =>
      fst (func (clock w)) = Fail e
      /\ snd (fst (call b func w))
         = {| clock := snd (func (clock w)); invocations := S (invocations w) |}
  | Raised (CircuitOpenError r) =>
      state b = OPEN
      /\ _should_attempt_reset b (clock w) = false
      /\ r = _time_until_retry b (clock w)
      /\ fst (call b func w) = (b, w)
  end.
Proof.
  unfold call, check_open, attempt.
  destruct (state b) eqn:Es.
  - destruct (func (clock w)) as [[v|e] t']; cbn; [now split|].
    destruct (expected_exception _ _); cbn; now split.
  - destruct (_should_attempt_reset b (clock w)) eqn:Er; cbn; [|now repeat split].
    destruct (func (clock w)) as [[v|e] t']; cbn; [now split|].
    destruct (expected_exception _ _); cbn; now split.
  - destruct (func (clock w)) as [[v|e] t']; cbn; [now split|].
    destruct (expected_exception _ _); cbn; now split.
Qed.

(** X9.  [call] adds nothing of its own to what the operation does, apart
    from [CircuitOpenError]: it returns [v] only when the operation was
    entered once and returned [v], raises the exception [e] of the operation
    only when the operation was entered once and raised [e], and raises
    [CircuitOpenError] only when the breaker was [OPEN] with the timeout not
    yet passed, in which case the operation is not entered and neither the
    breaker nor the environment changes. *)
Theorem X9_call_is_transparent (b : CircuitBreaker) (func : operation A) (w : Env) :
  match snd (call b func w) with
  | Returned v =>
      fst (func (clock w)) = Ok v
      /\ snd (fst (call b func w))
         = {| clock := snd (func (clock w)); invocations := S (invocations w) |}
  | Raised (OperationError e) =>
      fst (func (clock w)) = Fail e
      /\ snd (fst (call b func w))
         = {| clock := snd (func (clock w)); invocations := S (invocations w) |}
  | Raised (CircuitOpenError r) =>
      state b = OPEN
      /\ _should_attempt_reset b (clock w) = false
      /\ r = _time_until_retry b (clock w)
      /\ fst (call b func w) = (b, w)
  end.
Proof.
  exact (call_outcome_cases b func w).
Qed.

(** An [OPEN] breaker with a last failure at [t0] turns away every call made
    less than [timeout] seconds after [t0], and is left as it was. *)
Lemma open_rejects_before_timeout (b : CircuitBreaker) (func : operation A)
    (w : Env) (t0 : Q) :
  state b = OPEN -> last_failure_time b = Some t0 ->
  (clock w - t0 < timeout (config b))%Q ->
  call b func w = (b, w, Raised (CircuitOpenError (_time_until_retry b (clock w)))).
Proof.
  intros Hs Ht Hlt. unfold call, check_open, _should_attempt_reset.
  rewrite Hs, Ht. apply Qle_bool_gt in Hlt. now rewrite Hlt.
Qed.

(** X10.  One failure that the [except] clause matches, in [HALF_OPEN],
    sends the breaker back to [OPEN] with both counts at 0 and the last
    failure at the clock reading at which the operation ended; calls made
    less than [timeout] seconds after that are turned away. *)
Theorem X10_half_open_failure_reopens (b : CircuitBreaker) (func : operation A)
    (w : Env) (e : exception) (t' : Q) :
  state b = HALF_OPEN ->
  func (clock w) = (Fail e, t') ->
  expected_exception (config b) e = true ->
  let b' := fst (fst (call b func w)) in
  b' = {| config := config b;
          state := OPEN;
          failure_count := 0;
          success_count := 0;
          last_failure_time := Some t';
          last_state_change := t' |}
  /\ snd (call b func w) = Raised (OperationError e)
  /\ (forall (func2 : operation A) (w2 : Env),
        (clock w2 - t' < timeout (config b))%Q ->
        call b' func2 w2
        = (b', w2, Raised (CircuitOpenError (_time_until_retry b' (clock w2))))).
Proof.
  intros Hs Hr He.
  assert (Hc : call b func w
               = ({| config := config b; state := OPEN; failure_count := 0;
                     success_count := 0; last_failure_time := Some t';
                     last_state_change := t' |},
                  {| clock := t'; invocations := S (invocations w) |},
                  Raised (OperationError e))).
  { unfold call, check_open, attempt, _on_failure. rewrite Hs, Hr, He, Hs. reflexivity. }
  cbn zeta. rewrite Hc. cbn [fst snd]. split; [reflexivity|]. split; [reflexivity|].
  intros func2 w2 Hlt.
  now apply (open_rejects_before_timeout _ func2 w2 t').
Qed.


End BreakerCalls.

(** ** Circuit breaker: runs of calls *)

Section BreakerRuns.
Import Breaker.
Context {A : Type}.

Lemma calls_app (b : CircuitBreaker) (l1 l2 : list (Q * operation A)) (w : Env) :
  calls b (l1 ++ l2) w =
  let r1 := calls b l1 w in
  let r2 := calls (fst (fst r1)) l2 (snd (fst r1)) in
  (fst (fst r2), snd (fst r2), snd r1 ++ snd r2).
Proof.
  revert b w; induction l1 as [|[pause func] l1 IH]; intros b w.
  - cbn. destruct (calls b l2 w) as [[b2 w2] os]; reflexivity.
  - rewrite <- app_comm_cons, !calls_cons. cbn zeta. rewrite IH. reflexivity.
Qed.

(** An operation that returns whenever it is entered. *)
Definition succeeds (func : operation A) : Prop :=
  forall t, exists v t', func t = (Ok v, t').

(** In [HALF_OPEN], successes below the threshold are counted and change
    nothing else. *)
Lemma half_open_counts_successes (items : list (Q * operation A))
    (b : CircuitBreaker) (w : Env) :
  state b = HALF_OPEN ->
  Forall (fun it => succeeds (snd it)) items ->
  success_count b + Z.of_nat (length items) < success_threshold (config b) ->
  fst (fst (calls b items w))
  = {| config := config b;
       state := HALF_OPEN;
       failure_count := failure_count b;
       success_count := success_count b + Z.of_nat (length items);
       last_failure_time := last_failure_time b;
       last_state_change := last_state_change b |}
  /\ invocations (snd (fst (calls b items w))) = (invocations w + length items)%nat.
Proof.
  revert b w; induction items as [|[pause func] items IH]; intros b w Hs Hall Hlt.
  - cbn. rewrite Z.add_0_r, Nat.add_0_r. split; [|reflexivity].
    rewrite <- Hs. now destruct b.
  - apply Forall_cons_iff in Hall as [Hf Hall]. cbn [snd length] in *.
    rewrite calls_cons. cbn zeta.
    set (w0 := {| clock := (clock w + pause)%Q; invocations := invocations w |}).
    destruct (Hf (clock w0)) as [v [t' Hr]].
    assert (Hc : call b func w0
                 = ({| config := config b; state := HALF_OPEN;
                       failure_count := failure_count b;
                       success_count := success_count b + 1;
                       last_failure_time := last_failure_time b;
                       last_state_change := last_state_change b |},
                    {| clock := t'; invocations := S (invocations w) |},
                    Returned v)).
    { unfold call, check_open, attempt, _on_success. rewrite Hs, Hr, Hs.
      destruct (Z.leb_spec (success_threshold (config b)) (success_count b + 1));
        [lia|reflexivity]. }
    rewrite Hc. cbn [fst snd].
    destruct (IH {| config := config b; state := HALF_OPEN;
                    failure_count := failure_count b;
                    success_count := success_count b + 1;
                    last_failure_time := last_failure_time b;
                    last_state_change := last_state_change b |}
                 {| clock := t'; invocations := S (invocations w) |})
      as [I1 I2]; cbn [state config success_count]; [reflexivity|exact Hall|lia|].
    rewrite I1, I2. cbn. split; [|lia].
    f_equal. lia.
Qed.

(** X11.  From [HALF_OPEN] with no success counted and a
    [success_threshold] of [n + 1]: the first [n] calls whose operation
    returns leave the breaker [HALF_OPEN] and are counted, and call [n + 1]
    closes it, with both counts at 0 and the last failure still on record.
    Every one of these calls enters the operation. *)
Theorem X11_half_open_recovery (b : CircuitBreaker) (n : nat)
    (items : list (Q * operation A)) (pause : Q) (func : operation A) (w : Env) :
  state b = HALF_OPEN ->
  success_count b = 0 ->
  success_threshold (config b) = Z.of_nat (S n) ->
  length items = n ->
  Forall (fun it => succeeds (snd it)) items ->
  succeeds func ->
  let b1 := fst (fst (calls b items w)) in
  let b2 := fst (fst (calls b (items ++ [(pause, func)]) w)) in
  (state b1 = HALF_OPEN /\ success_count b1 = Z.of_nat n)
  /\ state b2 = CLOSED
  /\ failure_count b2 = 0
  /\ success_count b2 = 0
  /\ last_failure_time b2 = last_failure_time b
  /\ invocations (snd (fst (calls b (items ++ [(pause, func)]) w)))
     = (invocations w + S n)%nat.
Proof.
  intros Hs Hsc Hth Hlen Hall Hf.
  destruct (half_open_counts_successes items b w Hs Hall) as [H1 H2]; [lia|].
  cbn zeta. rewrite calls_app. cbn zeta. cbn [fst snd].
  rewrite H1. cbn [state success_count]. split; [split; [reflexivity|lia]|].
  rewrite calls_cons. cbn zeta. cbn [calls fst snd].
  set (w0 := {| clock := (clock (snd (fst (calls b items w))) + pause)%Q;
                invocations := invocations (snd (fst (calls b items w))) |}).
  destruct (Hf (clock w0)) as [v [t' Hr]].
  unfold call, check_open, attempt, _on_success.
  cbn [state config success_count failure_count last_failure_time].
  rewrite Hr. cbn [state config success_count].
  destruct (Z.leb_spec (success_threshold (config b))
              (success_count b + Z.of_nat (length items) + 1)); [|lia].
  cbn. repeat split. subst w0. cbn. rewrite H2. lia.
Qed.

(** What holds of every breaker that calls can produce from a new one. *)
Definition sound (b : CircuitBreaker) : Prop :=
  0 <= failure_count b
  /\ 0 <= success_count b
  /\ (state b = OPEN -> last_failure_time b <> None)
  /\ (state b <> HALF_OPEN -> success_count b = 0).

Lemma call_sound (b : CircuitBreaker) (func : operation A) (w : Env) :
  sound b -> sound (fst (fst (call b func w))).
Proof.
  intros [H1 [H2 [H3 H4]]].
  assert (H5 : state b = CLOSED -> success_count b = 0)
    by (intros E; apply H4; congruence).
  unfold call, check_open, attempt, _on_success, _on_failure, _transition_to_half_open.
  destruct (state b) eqn:Es;
    try destruct (_should_attempt_reset b (clock w));
    try (destruct (func (clock w)) as [[v|e] t'];
         [|destruct (expected_exception _ e)]);
    cbn; rewrite ?Es; cbn;
    try match goal with |- context [?m <=? ?n] => destruct (m <=? n) end;
    unfold sound; cbn; rewrite ?Es;
    repeat split; intros; try lia; try congruence; auto.
Qed.

Lemma calls_sound (items : list (Q * operation A)) (b : CircuitBreaker) (w : Env) :
  sound b -> sound (fst (fst (calls b items w))).
Proof.
  revert b w; induction items as [|[pause func] items IH]; intros b w H.
  - exact H.
  - rewrite calls_cons. cbn zeta. cbn [fst]. apply IH. now apply call_sound.
Qed.

(** X12.  A breaker made by [__init__] and used only through [call] always
    has counts that are not negative and a [success_count] of 0 outside
    [HALF_OPEN], and when it is [OPEN] it has a last failure on record: so
    it lets a call through once [timeout] seconds have passed since that
    failure.  (An [OPEN] breaker without a last failure, which [call] never
    produces, would turn away every call for ever.) *)
Theorem X12_open_breaker_can_recover (cfg : option CircuitBreakerConfig) (now0 : Q)
    (items : list (Q * operation A)) (w0 : Env) :
  let b := fst (fst (calls (init cfg now0) items w0)) in
  sound b
  /\ (state b = OPEN ->
      exists t0, last_failure_time b = Some t0
      /\ forall (func : operation A) (w : Env),
           (t0 + timeout (config b) <= clock w)%Q ->
           invocations (snd (fst (call b func w))) = S (invocations w))
  /\ (forall (stuck : CircuitBreaker) (func : operation A) (w : Env),
        state stuck = OPEN -> last_failure_time stuck = None ->
        call stuck func w = (stuck, w, Raised (CircuitOpenError 0))).
Proof.
  intros b.
  assert (Hb : sound b).
  { apply calls_sound. repeat split; cbn; try lia; discriminate. }
  split; [exact Hb|]. split.
  - intros Hs. destruct Hb as [_ [_ [H3 _]]]. specialize (H3 Hs).
    destruct (last_failure_time b) as [t0|] eqn:Et; [|now contradiction H3].
    exists t0. split; [reflexivity|]. intros func w Hle.
    unfold call, check_open, _should_attempt_reset. rewrite Hs, Et.
    assert (Hr : Qle_bool (timeout (config b)) (clock w - t0) = true)
      by (apply Qle_bool_iff; lra).
    rewrite Hr. unfold attempt.
    destruct (func (clock w)) as [[v|e] t']; cbn; [reflexivity|].
    destruct (expected_exception _ _); reflexivity.
  - intros stuck func w Hs Ht.
    unfold call, check_open, _should_attempt_reset, _time_until_retry.
    now rewrite Hs, Ht.
Qed.

End BreakerRuns.

(** *** The demonstration breaker, half open *)

Section BreakerExamples.
Import Breaker.

Lemma available_succeeds : succeeds available.
Proof.
  intros t. exists "Success!"%string, t. reflexivity.
Qed.

(** The opened breaker at clock reading 7, moved to [HALF_OPEN]. *)
Definition probing : CircuitBreaker := _transition_to_half_open opened 7.

Lemma X10_half_open_failure_reopens_witness :
  state (fst (fst (call probing unavailable {| clock := 7; invocations := 3 |})))
  = OPEN.
Proof.
  destruct (X10_half_open_failure_reopens probing unavailable
              {| clock := 7; invocations := 3 |} "ConnectionError"%string 7
              eq_refl eq_refl eq_refl) as [H _].
  rewrite H. reflexivity.
Defined.

Lemma X11_half_open_recovery_witness :
  state (fst (fst (calls probing [(0%Q, available); (1%Q, available)]
                     {| clock := 7; invocations := 3 |}))) = CLOSED.
Proof.
  refine (proj1 (proj2
    (X11_half_open_recovery probing 1 [(0%Q, available)] 1 available
       {| clock := 7; invocations := 3 |} eq_refl eq_refl eq_refl eq_refl _ _))).
  - constructor; [exact available_succeeds|constructor].
  - exact available_succeeds.
Defined.


End BreakerExamples.

(** ** Rate limiter: the sliding window over a run *)

Section LimiterWindow.
Import Secure.

(** Clock readings that never go back, starting at or after [lo]. *)
Fixpoint ascending (lo : Q) (times : list Q) : Prop :=
  match times with
  | [] => True
  | t :: rest => (lo <= t)%Q /\ ascending t rest
  end.

(** The clock readings of the calls that were allowed. *)
Definition allowed_times (times : list Q) (answers : list bool) : list Q :=
  map fst (filter snd (combine times answers)).

Lemma last_cons (t lo : Q) (l : list Q) : last (t :: l) lo = last l t.
Proof.
  revert t lo; induction l as [|x l IH]; intros t lo; [reflexivity|].
  change (last (t :: x :: l) lo) with (last (x :: l) lo).
  rewrite (IH x lo), (IH x t). reflexivity.
Qed.

Lemma prune_requests_twice (lo t : Q) (l : list Q) :
  (lo <= t)%Q ->
  prune_requests (t - 60)%Q (prune_requests (lo - 60)%Q l)
  = prune_requests (t - 60)%Q l.
Proof.
  intros Hle. unfold prune_requests.
  induction l as [|x l IH]; [reflexivity|].
  cbn [filter]. destruct (Qltb (lo - 60) x) eqn:E1.
  - cbn [filter]. now rewrite IH.
  - rewrite IH. destruct (Qltb (t - 60) x) eqn:E2; [|reflexivity].
    apply Qltb_ge in E1. apply Qltb_lt in E2. lra.
Qed.

Lemma prune_requests_length (cutoff : Q) (l : list Q) :
  (length (prune_requests cutoff l) <= length l)%nat.
Proof.
  pose proof (prune_requests_partition cutoff l). lia.
Qed.

Lemma prune_requests_app (cutoff : Q) (l1 l2 : list Q) :
  prune_requests cutoff (l1 ++ l2)
  = prune_requests cutoff l1 ++ prune_requests cutoff l2.
Proof.
  apply filter_app.
Qed.

(** Over a run with a clock that never goes back, the limiter holds the
    allowed clock readings of the last 60 seconds, and never more than its
    maximum. *)
Lemma allow_requests_window (times : list Q) (rl : RateLimiter) (m : Metrics)
    (lo : Q) (before : list Q) :
  0 <= max_requests_per_minute rl ->
  request_timestamps rl = prune_requests (lo - 60)%Q before ->
  Z.of_nat (length (request_timestamps rl)) <= max_requests_per_minute rl ->
  ascending lo times ->
  let r := allow_requests rl m times in
  let t := last times lo in
  request_timestamps (fst (fst r))
  = prune_requests (t - 60)%Q (before ++ allowed_times times (snd r))
  /\ Z.of_nat (length (request_timestamps (fst (fst r)))) <= max_requests_per_minute rl
  /\ max_requests_per_minute (fst (fst r)) = max_requests_per_minute rl.
Proof.
  revert rl m lo before; induction times as [|t times IH];
    intros rl m lo before Hm Hts Hlen Hasc.
  - cbn. rewrite app_nil_r. now repeat split.
  - destruct Hasc as [Hle Hasc].
    cbn zeta. rewrite allow_requests_cons. cbn zeta. cbn [fst snd].
    pose proof (prune_requests_length (t - 60)%Q (request_timestamps rl)) as Hk.
    assert (Hkept : prune_requests (t - 60)%Q (request_timestamps rl)
                    = prune_requests (t - 60)%Q before)
      by (rewrite Hts; now apply prune_requests_twice).
    assert (Hself : prune_requests (t - 60)%Q [t] = [t]).
    { unfold prune_requests; cbn.
      assert (E : Qltb (t - 60) t = true) by (apply Qltb_lt; lra).
      now rewrite E. }
    destruct (allow_request_spec rl m t) as [Hno Hyes].
    destruct (Z.le_gt_cases (max_requests_per_minute rl)
                (Z.of_nat (length (prune_requests (t - 60)%Q (request_timestamps rl)))))
      as [Hfull|Hroom].
    + rewrite (Hno Hfull). cbn [fst snd].
      destruct (IH {| max_requests_per_minute := max_requests_per_minute rl;
                      max_cost_per_hour := max_cost_per_hour rl;
                      request_timestamps :=
                        prune_requests (t - 60)%Q (request_timestamps rl);
                      hourly_costs := hourly_costs rl |}
                   {| dow_attempts_blocked := dow_attempts_blocked m;
                      rate_limit_exceeded := S (rate_limit_exceeded m) |}
                   t before) as [I1 [I2 I3]];
        cbn [max_requests_per_minute request_timestamps];
        [exact Hm|exact Hkept|lia|exact Hasc|].
      rewrite last_cons.
      unfold allowed_times in *. cbn [combine filter snd map].
      cbn [max_requests_per_minute] in I2, I3.
      now repeat split.
    + rewrite (Hyes Hroom). cbn [fst snd].
      destruct (IH {| max_requests_per_minute := max_requests_per_minute rl;
                      max_cost_per_hour := max_cost_per_hour rl;
                      request_timestamps :=
                        prune_requests (t - 60)%Q (request_timestamps rl) ++ [t];
                      hourly_costs := hourly_costs rl |}
                   m t (before ++ [t])) as [I1 [I2 I3]];
        cbn [max_requests_per_minute request_timestamps];
        [exact Hm
        |now rewrite prune_requests_app, Hself, Hkept
        |rewrite length_app; cbn [length]; lia
        |exact Hasc|].
      rewrite last_cons.
      unfold allowed_times in *. cbn [combine filter snd map fst].
      cbn [max_requests_per_minute] in I2, I3.
      rewrite <- app_assoc in I1. now repeat split.
Qed.

(** X14.  On a new limiter with a maximum [m >= 0], over any run of
    [allow_request] calls whose clock never goes back: after each call the
    limiter holds exactly the clock readings of the calls it allowed in the
    60 seconds up to that call, and they number at most [m].  So no more
    than [m] requests are ever allowed within 60 seconds. *)
Theorem X14_at_most_max_per_minute (max_requests : Z) (max_cost : Q)
    (m : Metrics) (t0 : Q) (rest : list Q) :
  0 <= max_requests ->
  ascending t0 rest ->
  let r := allow_requests (new_limiter max_requests max_cost) m (t0 :: rest) in
  let recent :=
    prune_requests (last rest t0 - 60)%Q (allowed_times (t0 :: rest) (snd r)) in
  request_timestamps (fst (fst r)) = recent
  /\ Z.of_nat (length recent) <= max_requests.
Proof.
  intros Hm Hasc.
  destruct (allow_requests_window (t0 :: rest) (new_limiter max_requests max_cost)
              m t0 []) as [I1 [I2 _]];
    cbn [new_limiter max_requests_per_minute request_timestamps length];
    [exact Hm|reflexivity|lia| |].
  - split; [apply Qle_refl|exact Hasc].
  - cbn zeta.
    rewrite last_cons in I1.
    cbn [app] in I1. cbn [new_limiter max_requests_per_minute] in I2.
    rewrite I1 in I2. split; assumption.
Qed.

Lemma X14_at_most_max_per_minute_witness :
  request_timestamps
    (fst (fst (allow_requests (new_limiter 2 10) no_metrics [0%Q; 1%Q; 2%Q; 61%Q])))
  = prune_requests (61 - 60)%Q
      (allowed_times [0%Q; 1%Q; 2%Q; 61%Q]
         (snd (allow_requests (new_limiter 2 10) no_metrics [0%Q; 1%Q; 2%Q; 61%Q]))).
Proof.
  refine (proj1 (X14_at_most_max_per_minute 2 10 no_metrics 0 [1%Q; 2%Q; 61%Q] _ _)).
  - discriminate.
  - cbn. repeat split; discriminate.
Defined.

End LimiterWindow.

(** ** Cost ledger, cost estimate and input screen *)

Section CostAndScreen.
Import Secure.

Lemma sum_snoc (l : list Q) (c : Q) : sum (l ++ [c]) = (sum l + c)%Q.
Proof.
  unfold sum. now rewrite fold_left_app.
Qed.

(** X15.  Right after [record_cost] at clock reading [t], every entry of the
    ledger is less than 3600 seconds old, the entries kept are those of the
    old ledger that are, in their order, and [get_hourly_cost] is the sum of
    their costs and the new cost: the total of the last hour. *)
Theorem X15_record_cost_keeps_last_hour (rl : RateLimiter) (cost t : Q) :
  let rl' := record_cost rl cost t in
  Forall (fun p => (t - 3600 < fst p)%Q) (hourly_costs rl')
  /\ (forall p, In p (hourly_costs rl') <->
                (In p (hourly_costs rl) /\ (t - 3600 < fst p)%Q) \/ p = (t, cost))
  /\ get_hourly_cost rl'
     = (sum (map snd (prune_costs (t - 3600)%Q (hourly_costs rl))) + cost)%Q
  /\ request_timestamps rl' = request_timestamps rl.
Proof.
  cbn zeta. unfold record_cost, get_hourly_cost; cbn [hourly_costs request_timestamps].
  split; [|split; [|split]].
  - apply Forall_app; split.
    + apply Forall_forall. intros p Hp. apply filter_In in Hp as [_ Hp].
      now apply Qltb_lt.
    + constructor; [cbn; lra|constructor].
  - intro p. rewrite in_app_iff. unfold prune_costs. rewrite filter_In, Qltb_lt.
    cbn [In]. intuition congruence.
  - rewrite map_app. cbn [map snd]. apply sum_snoc.
  - reflexivity.
Qed.

Lemma estimate_cost_linear (task kwargs : string) :
  (_estimate_cost task kwargs == inject_Z (len kwargs) * (99 # 4000000))%Q.
Proof.
  unfold _estimate_cost. field.
Qed.

(** X16.  The estimate depends on the size of the input alone, not on the
    task: it is 24.75 dollars for a million characters, [0] for an empty
    input, and it grows with the size. *)
Theorem X16_estimate_is_linear (task kwargs : string) :
  (_estimate_cost task kwargs == inject_Z (len kwargs) * (99 # 4000000))%Q
  /\ (0 <= _estimate_cost task kwargs)%Q
  /\ (forall task' kwargs',
        len kwargs <= len kwargs' ->
        (_estimate_cost task kwargs <= _estimate_cost task' kwargs')%Q).
Proof.
  pose proof estimate_cost_linear as E.
  assert (P : forall k, (0 <= inject_Z (len k))%Q).
  { intro k. change 0%Q with (inject_Z 0). rewrite <- Zle_Qle. unfold len. lia. }
  split; [apply E|]. split.
  - rewrite E. specialize (P kwargs). nra.
  - intros task' kwargs' Hle. rewrite !E.
    rewrite Zle_Qle in Hle. lra.
Qed.

Section Screen.
Variable zlib_compress : string -> string.

(** When [_is_repetitive] flags a text. *)
Lemma is_repetitive_iff (text : string) :
  _is_repetitive zlib_compress text = true
  <-> 100 <= len text /\ 5 * len (zlib_compress text) < len text.
Proof.
  unfold _is_repetitive.
  destruct (Z.ltb_spec (len text) 100) as [Hs|H]; [split; [discriminate|lia]|].
  rewrite Qltb_lt.
  set (c := len (zlib_compress text)). set (n := len text) in *.
  assert (Hn : (0 < inject_Z n)%Q)
    by (change 0%Q with (inject_Z 0); rewrite <- Zlt_Qlt; lia).
  split.
  - intro Hlt. split; [exact H|].
    assert (Hm : (inject_Z c < (1 - (8 # 10)) * inject_Z n)%Q).
    { rewrite <- (Qmult_div_r (inject_Z c) (inject_Z n)) at 1 by lra.
      rewrite (Qmult_comm (inject_Z n)).
      apply Qmult_lt_compat_r; assumption. }
    assert (H5 : (5 * inject_Z c < inject_Z n)%Q) by lra.
    change 5%Q with (inject_Z 5) in H5.
    rewrite <- inject_Z_mult, <- Zlt_Qlt in H5. exact H5.
  - intros [_ Hlt]. apply Qlt_shift_div_r; [exact Hn|].
    rewrite Zlt_Qlt, inject_Z_mult in Hlt.
    change (inject_Z 5) with 5%Q in Hlt. lra.
Qed.

(** X17.  [_is_repetitive] never flags a text of fewer than 100 characters;
    a longer text is flagged exactly when five times the size of its
    compressed form is less than its own size. *)
Theorem X17_repetitive_means_five_fold (text : string) :
  (len text < 100 -> _is_repetitive zlib_compress text = false)
  /\ (100 <= len text ->
      (_is_repetitive zlib_compress text = true
       <-> 5 * len (zlib_compress text) < len text)).
Proof.
  pose proof (is_repetitive_iff text) as H. split.
  - intro Hs. destruct (_is_repetitive zlib_compress text); [|reflexivity].
    destruct H as [H _]. specialize (H eq_refl). lia.
  - intro Hl. rewrite H. split; [now intros [_ ?]|now split].
Qed.

Lemma allowed_task_iff (task : string) :
  existsb (String.eqb task) allowed_tasks = true <-> In task allowed_tasks.
Proof.
  rewrite existsb_exists. split.
  - intros [x [Hx He]]. apply String.eqb_eq in He. now subst.
  - intro H. exists task. split; [exact H|apply String.eqb_refl].
Qed.

(** [_validate_input] raises none of the exceptions of the two checks that
    come before it. *)
Lemma validation_never_rate_or_cost (task kwargs : string) (m : Metrics) :
  snd (_validate_input zlib_compress task kwargs m) <> Some RateLimitExceeded
  /\ snd (_validate_input zlib_compress task kwargs m) <> Some CostLimitExceeded.
Proof.
  unfold _validate_input.
  destruct (_ <? _); cbn; [split; discriminate|].
  destruct (_is_repetitive _ _); cbn; [split; discriminate|].
  destruct (negb _); cbn; split; discriminate.
Qed.

(** X18.  [_validate_input] lets a request through exactly when the input
    has at most 100000 characters, is not flagged as repetitive and the task
    is one of the three allowed.  Its three checks are made in that order:
    an input that is too large is reported as [InputTooLarge] whatever the
    task, and [UnauthorizedTask] is raised only for an input that passes
    both screens.  Only [SuspiciousInput] is counted as a blocked attempt. *)
Theorem X18_validation_accepts (task kwargs : string) (m : Metrics) :
  let r := _validate_input zlib_compress task kwargs m in
  let repetitive := 100 <= len kwargs /\ 5 * len (zlib_compress kwargs) < len kwargs in
  (snd r = None <->
     len kwargs <= 100000 /\ ~ repetitive /\ In task allowed_tasks)
  /\ (snd r = Some InputTooLarge <-> 100000 < len kwargs)
  /\ (snd r = Some SuspiciousInput <-> len kwargs <= 100000 /\ repetitive)
  /\ (snd r = Some UnauthorizedTask <->
        len kwargs <= 100000 /\ ~ repetitive /\ ~ In task allowed_tasks)
  /\ fst r = match snd r with
             | Some SuspiciousInput =>
                 {| dow_attempts_blocked := S (dow_attempts_blocked m);
                    rate_limit_exceeded := rate_limit_exceeded m |}
             | _ => m
             end.
Proof.
  cbn zeta. unfold _validate_input.
  pose proof (is_repetitive_iff kwargs) as Hrep.
  pose proof (allowed_task_iff task) as Hal.
  destruct (Z.ltb_spec 100000 (len kwargs)) as [Hbig|Hok]; cbn [fst snd].
  - repeat split; try discriminate; try lia; intros; try lia.
    all: try (exfalso; lia).
    all: intuition lia.
  - destruct (_is_repetitive zlib_compress kwargs) eqn:Er; cbn [fst snd].
    + assert (Hr : 100 <= len kwargs /\ 5 * len (zlib_compress kwargs) < len kwargs)
        by (now apply Hrep).
      repeat split; try discriminate; try tauto; try lia.
    + assert (Hr : ~ (100 <= len kwargs /\ 5 * len (zlib_compress kwargs) < len kwargs))
        by (intro Hx; apply Hrep in Hx; discriminate).
      destruct (existsb (String.eqb task) allowed_tasks) eqn:Ea; cbn [negb fst snd].
      * assert (In task allowed_tasks) by (now apply Hal).
        repeat split; try discriminate; try tauto; try lia.
      * assert (~ In task allowed_tasks)
          by (intro Hx; apply Hal in Hx; discriminate).
        repeat split; try discriminate; try tauto; try lia.
Qed.

End Screen.

End CostAndScreen.

(** ** The agent: what one [execute] leaves behind *)

Section ExecuteFrame.
Import Secure.
Variable zlib_compress : string -> string.

(** The entry [_audit_log] writes. *)
Definition audit_entry (now : Q) (ev task kwargs : string)
    (res : option TaskResult) : AuditEntry :=
  {| entry_timestamp := now; event := ev; entry_task := task;
     input_size := len kwargs; result := res; error := None |}.

(** The result of the simulated task. *)
Definition simulated_result : TaskResult :=
  {| status := "success"; cost := Some (1 / 1000)%Q |}.

(** What [execute] returns and leaves, case by case. *)
Lemma execute_cases (ag : SecureAgent) (m : Metrics) (task kwargs : string) (now : Q) :
  let kept := prune_requests (now - 60)%Q (request_timestamps (rate_limiter ag)) in
  let blocked := {| dow_attempts_blocked := S (dow_attempts_blocked m);
                    rate_limit_exceeded := rate_limit_exceeded m |} in
  let limiter ts costs :=
    {| max_requests_per_minute := max_requests_per_minute (rate_limiter ag);
       max_cost_per_hour := max_cost_per_hour (rate_limiter ag);
       request_timestamps := ts;
       hourly_costs := costs |} in
  let old := hourly_costs (rate_limiter ag) in
  execute zlib_compress ag m task kwargs now =
  if max_requests_per_minute (rate_limiter ag) <=? Z.of_nat (length kept)
  then ({| rate_limiter := limiter kept old;
           audit_log := audit_log ag
                        ++ [audit_entry now "rate_limit_exceeded" task kwargs None] |},
        {| dow_attempts_blocked := dow_attempts_blocked m;
           rate_limit_exceeded := S (rate_limit_exceeded m) |},
        Raised RateLimitExceeded)
  else if Qltb (max_cost_per_hour (rate_limiter ag))
               (sum (map snd old) + _estimate_cost task kwargs)%Q
  then ({| rate_limiter := limiter (kept ++ [now]) old;
           audit_log := audit_log ag
                        ++ [audit_entry now "cost_limit_exceeded" task kwargs None] |},
        blocked, Raised CostLimitExceeded)
  else match snd (_validate_input zlib_compress task kwargs m) with
       | Some e =>
           ({| rate_limiter := limiter (kept ++ [now]) old;
               audit_log := audit_log ag |},
            fst (_validate_input zlib_compress task kwargs m), Raised e)
       | None =>
           ({| rate_limiter :=
                 limiter (kept ++ [now])
                   (prune_costs (now + 1 / 10 - 3600)%Q old
                    ++ [((now + 1 / 10)%Q, (1 / 1000)%Q)]);
               audit_log := audit_log ag
                            ++ [audit_entry (now + 1 / 10)%Q "success" task kwargs
                                  (Some simulated_result)] |},
            fst (_validate_input zlib_compress task kwargs m),
            Returned simulated_result)
       end.
Proof.
  cbn zeta. unfold execute, allow_request.
  destruct (_ <=? _); cbn [negb]; [reflexivity|].
  unfold allow_cost, get_hourly_cost. cbn [hourly_costs max_cost_per_hour].
  destruct (Qltb _ _); cbn [negb]; [reflexivity|].
  destruct (_validate_input zlib_compress task kwargs m) as [m3 [e|]]; reflexivity.
Qed.

(** X19.  A request that the rate limit lets through takes a place in the
    60-second window whatever happens to it next: also when it is then
    refused for its cost or by the input screen.  Only a request refused by
    the rate limit itself takes none. *)
Theorem X19_refused_requests_take_a_slot (ag : SecureAgent) (m : Metrics)
    (task kwargs : string) (now : Q) :
  request_timestamps (rate_limiter (fst (fst (execute zlib_compress ag m task kwargs now))))
  = prune_requests (now - 60)%Q (request_timestamps (rate_limiter ag))
    ++ match snd (execute zlib_compress ag m task kwargs now) with
       | Raised RateLimitExceeded => []
       | _ => [now]
       end.
Proof.
  rewrite execute_cases. cbn zeta.
  destruct (_ <=? _); cbn; [now rewrite app_nil_r|].
  destruct (Qltb _ _); cbn; [reflexivity|].
  pose proof (validation_never_rate_or_cost zlib_compress task kwargs m) as Hv.
  destruct (snd (_validate_input zlib_compress task kwargs m)) as [[]|]; cbn;
    try reflexivity; now destruct Hv.
Qed.

(** X20.  [execute] only ever appends to the audit log: one entry for a
    request refused by the rate limit, one for a request refused for its
    cost, one for a request that succeeded, each with the task and the size
    of the input; and no entry at all for a request refused by
    [_validate_input]. *)
Theorem X20_audit_trail (ag : SecureAgent) (m : Metrics)
    (task kwargs : string) (now : Q) :
  audit_log (fst (fst (execute zlib_compress ag m task kwargs now)))
  = audit_log ag
    ++ match snd (execute zlib_compress ag m task kwargs now) with
       | Raised RateLimitExceeded =>
           [audit_entry now "rate_limit_exceeded" task kwargs None]
       | Raised CostLimitExceeded =>
           [audit_entry now "cost_limit_exceeded" task kwargs None]
       | Raised _ => []
       | Returned res =>
           [audit_entry (now + 1 / 10)%Q "success" task kwargs (Some res)]
       end.
Proof.
  rewrite execute_cases. cbn zeta.
  destruct (_ <=? _); cbn; [reflexivity|].
  destruct (Qltb _ _); cbn; [reflexivity|].
  pose proof (validation_never_rate_or_cost zlib_compress task kwargs m) as Hv.
  destruct (snd (_validate_input zlib_compress task kwargs m)) as [[]|]; cbn;
    rewrite ?app_nil_r; try reflexivity; now destruct Hv.
Qed.

(** X21.  Only a request that succeeds is charged: it returns the result of
    the simulated task and adds its cost of 0.001 to the ledger, at the
    clock reading at which the task ended and after pruning the ledger to
    the hour before it.  A request that raises leaves the ledger as it
    was. *)
Theorem X21_only_success_is_charged (ag : SecureAgent) (m : Metrics)
    (task kwargs : string) (now : Q) :
  match snd (execute zlib_compress ag m task kwargs now) with
  | Returned res =>
      res = simulated_result
      /\ hourly_costs (rate_limiter (fst (fst (execute zlib_compress ag m task kwargs now))))
         = prune_costs (now + 1 / 10 - 3600)%Q (hourly_costs (rate_limiter ag))
           ++ [((now + 1 / 10)%Q, (1 / 1000)%Q)]
  | Raised _ =>
      hourly_costs (rate_limiter (fst (fst (execute zlib_compress ag m task kwargs now))))
      = hourly_costs (rate_limiter ag)
  end.
Proof.
  rewrite execute_cases. cbn zeta.
  destruct (_ <=? _); cbn; [reflexivity|].
  destruct (Qltb _ _); cbn; [reflexivity|].
  destruct (snd (_validate_input zlib_compress task kwargs m)); cbn;
    [reflexivity|now split].
Qed.

End ExecuteFrame.

(** ** The agent: budget and rate limit from the start *)

Section ExecuteRuns.
Import Secure.
Variable zlib_compress : string -> string.

Lemma len_nonneg (s : string) : 0 <= len s.
Proof.
  unfold len. lia.
Qed.

(** The estimate goes over a budget of 10 from 404041 characters on. *)
Lemma estimate_over_ten (task kwargs : string) :
  (10 < 0 + _estimate_cost task kwargs)%Q <-> 404040 < len kwargs.
Proof.
  rewrite estimate_cost_linear. split; intro H.
  - destruct (Z.le_gt_cases (len kwargs) 404040) as [Hle|Hgt]; [|lia].
    rewrite Zle_Qle in Hle. change (inject_Z 404040) with 404040%Q in Hle. lra.
  - assert (Hge : 404041 <= len kwargs) by lia.
    rewrite Zle_Qle in Hge. change (inject_Z 404041) with 404041%Q in Hge. lra.
Qed.

(** X22.  On a new agent (budget 10 per hour, nothing spent), whatever the
    task and the clock: a request is refused with [CostLimitExceeded]
    exactly when its input has more than 404040 characters, and with
    [InputTooLarge] exactly when it has more than 100000 and at most 404040;
    it is never refused by the rate limit. *)
Theorem X22_new_agent_thresholds (m : Metrics) (task kwargs : string) (now : Q) :
  let o := snd (execute zlib_compress new_agent m task kwargs now) in
  (o = Raised CostLimitExceeded <-> 404040 < len kwargs)
  /\ (o = Raised InputTooLarge <-> 100000 < len kwargs <= 404040)
  /\ o <> Raised RateLimitExceeded.
Proof.
  cbn zeta. rewrite execute_cases. cbn zeta.
  cbn [new_agent new_limiter rate_limiter request_timestamps hourly_costs
       max_requests_per_minute max_cost_per_hour prune_requests filter length map].
  change (60 <=? Z.of_nat 0) with false. cbn iota.
  change (sum []) with 0%Q.
  pose proof (estimate_over_ten task kwargs) as Hc.
  pose proof (validation_never_rate_or_cost zlib_compress task kwargs m) as [Hv1 Hv2].
  destruct (Qltb 10 (0 + _estimate_cost task kwargs)) eqn:E; cbn [snd].
  - apply Qltb_lt in E. apply Hc in E.
    split; [tauto|]. split; [|discriminate].
    split; [discriminate|lia].
  - apply Qltb_ge in E.
    assert (Hn : ~ 404040 < len kwargs) by (intro Hx; apply Hc in Hx; lra).
    revert Hv1 Hv2. unfold _validate_input.
    destruct (Z.ltb_spec 100000 (len kwargs)); cbn [snd].
    + intros _ _. split; [split; [discriminate|lia]|].
      split; [split; [lia|reflexivity]|discriminate].
    + intros Hv1 Hv2.
      destruct (_is_repetitive zlib_compress kwargs); cbn [snd] in *.
      * split; [split; [discriminate|lia]|].
        split; [split; [discriminate|lia]|discriminate].
      * destruct (negb _); cbn [snd] in *;
          (split; [split; [discriminate|lia]|]);
          (split; [split; [discriminate|lia]|discriminate]).
Qed.

End ExecuteRuns.

(** ** The agent: sixty requests a minute *)

Section ExecuteBurst.
Import Secure.
Variable zlib_compress : string -> string.

(** A caller that makes the requests of [reqs] one after the other, each
    given as the task, the rendered arguments and the clock reading at
    which [execute] is entered, catching what is raised. *)
Fixpoint executes (ag : SecureAgent) (m : Metrics) (reqs : list (string * string * Q))
  : SecureAgent * Metrics * list outcome :=
  match reqs with
  | [] => (ag, m, [])
  | (task, kwargs, now) :: rest =>
      let '(ag1, m1, o) := execute zlib_compress ag m task kwargs now in
      let '(ag2, m2, os) := executes ag1 m1 rest in
      (ag2, m2, o :: os)
  end.

Lemma executes_cons (ag : SecureAgent) (m : Metrics) task kwargs now rest :
  executes ag m ((task, kwargs, now) :: rest) =
  let r := execute zlib_compress ag m task kwargs now in
  let r' := executes (fst (fst r)) (snd (fst r)) rest in
  (fst (fst r'), snd (fst r'), snd r :: snd r').
Proof.
  cbn [executes].
  destruct (execute zlib_compress ag m task kwargs now) as [[ag1 m1] o]; cbn [fst snd].
  destruct (executes ag1 m1 rest) as [[ag2 m2] os]; reflexivity.
Qed.

Lemma executes_app (ag : SecureAgent) (m : Metrics) l1 l2 :
  executes ag m (l1 ++ l2) =
  let r := executes ag m l1 in
  let r' := executes (fst (fst r)) (snd (fst r)) l2 in
  (fst (fst r'), snd (fst r'), snd r ++ snd r').
Proof.
  revert ag m; induction l1 as [|[[task kwargs] now] l1 IH]; intros ag m.
  - cbn. destruct (executes ag m l2) as [[ag2 m2] os]; reflexivity.
  - rewrite <- app_comm_cons, !executes_cons. cbn zeta. rewrite IH. reflexivity.
Qed.

(** What [_validate_input] decides does not depend on the counters. *)
Lemma validation_ignores_metrics (task kwargs : string) (m m' : Metrics) :
  snd (_validate_input zlib_compress task kwargs m)
  = snd (_validate_input zlib_compress task kwargs m').
Proof.
  unfold _validate_input.
  destruct (_ <? _); [reflexivity|].
  destruct (_is_repetitive _ _); [reflexivity|].
  destruct (negb _); reflexivity.
Qed.

(** A request that [_validate_input] lets through. *)
Definition accepted (req : string * string * Q) : Prop :=
  snd (_validate_input zlib_compress (fst (fst req)) (snd (fst req)) no_metrics) = None.

Lemma accepted_size (task kwargs : string) (m : Metrics) :
  snd (_validate_input zlib_compress task kwargs m) = None -> len kwargs <= 100000.
Proof.
  unfold _validate_input.
  destruct (Z.ltb_spec 100000 (len kwargs)); [discriminate|]. intros _. assumption.
Qed.

(** The two constants of [_execute_task], as fractions. *)
Ltac fractions :=
  try change (1 / 1000)%Q with (1 # 1000)%Q in *;
  try change (1 / 10)%Q with (1 # 10)%Q in *.

Lemma sum_bounded (b : Q) (l : list Q) (a : Q) :
  Forall (fun c => (c <= b)%Q) l ->
  (fold_left Qplus l a <= a + inject_Z (Z.of_nat (length l)) * b)%Q.
Proof.
  intros H. revert a; induction H as [|c l Hc _ IH]; intro a.
  - cbn [fold_left length]. change (inject_Z (Z.of_nat 0)) with 0%Q. lra.
  - cbn [fold_left length]. specialize (IH (a + c)%Q).
    rewrite Nat2Z.inj_succ. unfold Z.succ. rewrite inject_Z_plus.
    change (inject_Z 1) with 1%Q. lra.
Qed.

(** An agent with the limits of [__init__] whose window and ledger were
    filled since [t0], the ledger with costs of the simulated task. *)
Definition steady (t0 : Q) (ag : SecureAgent) : Prop :=
  max_requests_per_minute (rate_limiter ag) = 60
  /\ max_cost_per_hour (rate_limiter ag) = 10%Q
  /\ Forall (fun t => (t0 <= t < t0 + 60)%Q) (request_timestamps (rate_limiter ag))
  /\ Forall (fun p => (t0 <= fst p)%Q /\ (snd p <= 1 / 1000)%Q)
            (hourly_costs (rate_limiter ag))
  /\ (length (hourly_costs (rate_limiter ag))
      <= length (request_timestamps (rate_limiter ag)))%nat.

Lemma steady_keeps_window (t0 now : Q) (ag : SecureAgent) :
  steady t0 ag -> (t0 <= now < t0 + 60)%Q ->
  prune_requests (now - 60)%Q (request_timestamps (rate_limiter ag))
  = request_timestamps (rate_limiter ag).
Proof.
  intros [_ [_ [Hts _]]] [Hn1 Hn2]. unfold prune_requests. apply filter_all.
  eapply Forall_impl; [|exact Hts]. intros t [Ht1 Ht2]. apply Qltb_lt. lra.
Qed.

(** With room in the window, an accepted request succeeds and the agent
    stays [steady]. *)
Lemma execute_steady (t0 : Q) (ag : SecureAgent) (m : Metrics)
    (task kwargs : string) (now : Q) :
  steady t0 ag ->
  (length (request_timestamps (rate_limiter ag)) < 60)%nat ->
  (t0 <= now < t0 + 60)%Q ->
  accepted (task, kwargs, now) ->
  snd (execute zlib_compress ag m task kwargs now) = Returned simulated_result
  /\ steady t0 (fst (fst (execute zlib_compress ag m task kwargs now)))
  /\ request_timestamps
       (rate_limiter (fst (fst (execute zlib_compress ag m task kwargs now))))
     = request_timestamps (rate_limiter ag) ++ [now].
Proof.
  intros Hst Hroom Hnow Hacc.
  pose proof (steady_keeps_window t0 now ag Hst Hnow) as Hkept.
  destruct Hst as [Hmax [Hcost [Hts [Hhc Hlen]]]]. destruct Hnow as [Hn1 Hn2].
  unfold accepted in Hacc. cbn [fst snd] in Hacc.
  rewrite (validation_ignores_metrics task kwargs no_metrics m) in Hacc.
  rewrite execute_cases. cbn zeta. rewrite Hkept, Hmax, Hcost.
  destruct (Z.leb_spec 60 (Z.of_nat (length (request_timestamps (rate_limiter ag)))));
    [lia|].
  assert (Hsum : (sum (map snd (hourly_costs (rate_limiter ag))) <= 60 * (1 / 1000))%Q).
  { unfold sum.
    pose proof (sum_bounded (1 / 1000)%Q (map snd (hourly_costs (rate_limiter ag))) 0%Q)
      as Hb.
    rewrite length_map in Hb.
    assert (Hl : (inject_Z (Z.of_nat (length (hourly_costs (rate_limiter ag)))) <= 60)%Q).
    { change 60%Q with (inject_Z 60). rewrite <- Zle_Qle. lia. }
    assert (Hall : Forall (fun c => (c <= 1 / 1000)%Q)
                     (map snd (hourly_costs (rate_limiter ag)))).
    { apply Forall_forall. intros c Hc. apply in_map_iff in Hc as [p [<- Hp]].
      now apply (proj1 (Forall_forall _ _) Hhc p Hp). }
    specialize (Hb Hall).
    set (k := inject_Z (Z.of_nat (length (hourly_costs (rate_limiter ag))))) in *.
    clearbody k. fractions. lra. }
  assert (Hest : (_estimate_cost task kwargs <= 3)%Q).
  { rewrite estimate_cost_linear.
    pose proof (accepted_size task kwargs m Hacc) as Hs.
    rewrite Zle_Qle in Hs. change (inject_Z 100000) with 100000%Q in Hs. lra. }
  assert (Hfit : Qltb 10 (sum (map snd (hourly_costs (rate_limiter ag)))
                          + _estimate_cost task kwargs) = false)
    by (apply Qltb_ge; fractions; lra).
  rewrite Hfit, Hacc. cbn [fst snd rate_limiter request_timestamps hourly_costs
                           max_requests_per_minute max_cost_per_hour].
  split; [reflexivity|]. split; [|reflexivity].
  unfold steady. cbn [rate_limiter request_timestamps hourly_costs
                      max_requests_per_minute max_cost_per_hour].
  split; [reflexivity|]. split; [reflexivity|]. split; [|split].
  - apply Forall_app; split; [exact Hts|]. constructor; [split; lra|constructor].
  - apply Forall_app; split.
    + apply Forall_forall. intros p Hp. apply filter_In in Hp as [Hp _].
      now apply (proj1 (Forall_forall _ _) Hhc p Hp).
    + constructor; [cbn [fst snd]; fractions; split; lra|constructor].
  - rewrite !length_app. cbn [length].
    pose proof (filter_length_le (fun p => Qltb (now + 1 / 10 - 3600) (fst p))
                  (hourly_costs (rate_limiter ag))) as Hf.
    unfold prune_costs. lia.
Qed.

Lemma executes_steady (t0 : Q) (reqs : list (string * string * Q))
    (ag : SecureAgent) (m : Metrics) :
  steady t0 ag ->
  (length (request_timestamps (rate_limiter ag)) + length reqs <= 60)%nat ->
  Forall (fun req => (t0 <= snd req < t0 + 60)%Q /\ accepted req) reqs ->
  snd (executes ag m reqs) = repeat (Returned simulated_result) (length reqs)
  /\ steady t0 (fst (fst (executes ag m reqs)))
  /\ request_timestamps (rate_limiter (fst (fst (executes ag m reqs))))
     = request_timestamps (rate_limiter ag) ++ map snd reqs.
Proof.
  revert ag m; induction reqs as [|[[task kwargs] now] reqs IH]; intros ag m Hst Hlen Hall.
  - cbn [executes fst snd map length repeat]. rewrite app_nil_r.
    split; [reflexivity|split; [exact Hst|reflexivity]].
  - apply Forall_cons_iff in Hall as [[Hnow Hacc] Hall]. cbn [snd length] in *.
    rewrite executes_cons. cbn zeta. cbn [fst snd].
    destruct (execute_steady t0 ag m task kwargs now Hst) as [E1 [E2 E3]];
      [lia|exact Hnow|exact Hacc|].
    destruct (IH (fst (fst (execute zlib_compress ag m task kwargs now)))
                 (snd (fst (execute zlib_compress ag m task kwargs now))) E2)
      as [I1 [I2 I3]]; [rewrite E3, length_app; cbn [length]; lia|exact Hall|].
    rewrite E1, I1, I3, E3, <- app_assoc.
    split; [reflexivity|split; [exact I2|reflexivity]].
Qed.

(** X23.  On a new agent, of 61 requests entered within less than 60
    seconds of each other, where the first 60 pass [_validate_input]: the
    first 60 succeed, each with the result of the simulated task, and
    request 61 is refused with [RateLimitExceeded], whatever it asks. *)
Theorem X23_sixty_requests_a_minute (m : Metrics) (t0 : Q)
    (reqs : list (string * string * Q)) (last : string * string * Q) :
  length reqs = 60%nat ->
  Forall (fun req => (t0 <= snd req < t0 + 60)%Q /\ accepted req) reqs ->
  (t0 <= snd last < t0 + 60)%Q ->
  snd (executes new_agent m (reqs ++ [last]))
  = repeat (Returned simulated_result) 60 ++ [Raised RateLimitExceeded].
Proof.
  intros Hlen Hall Hlast.
  assert (H0 : steady t0 new_agent).
  { unfold steady; cbn. repeat split; try constructor. }
  destruct (executes_steady t0 reqs new_agent m H0) as [I1 [I2 I3]];
    [cbn; lia|exact Hall|].
  rewrite executes_app. cbn zeta. cbn [snd]. rewrite I1, Hlen. f_equal.
  destruct last as [[task kwargs] now]. cbn [snd] in Hlast.
  rewrite executes_cons. cbn zeta. cbn [snd executes].
  rewrite execute_cases. cbn zeta.
  rewrite (steady_keeps_window t0 now _ I2 Hlast), I3.
  destruct I2 as [Hmax _]. rewrite Hmax.
  cbn [new_agent new_limiter rate_limiter request_timestamps app].
  rewrite length_map, Hlen. reflexivity.
Qed.

End ExecuteBurst.

(** *** Sixty-one small requests *)

Section ExecuteBurstExample.
Import Secure.

(** The request of the test script: [execute("fix_pod", pod_name="my-app")]
    at clock reading 0. *)
Definition small_request : string * string * Q :=
  ("fix_pod"%string, "{'pod_name': 'my-app'}"%string, 0%Q).

Lemma X23_sixty_requests_a_minute_witness :
  snd (executes no_compression new_agent no_metrics
         (repeat small_request 60 ++ [small_request]))
  = repeat (Returned simulated_result) 60 ++ [Raised RateLimitExceeded].
Proof.
  apply (X23_sixty_requests_a_minute no_compression no_metrics 0).
  - apply repeat_length.
  - apply Forall_forall. intros req Hreq. apply repeat_spec in Hreq. subst req.
    split; [split; [discriminate|reflexivity]|reflexivity].
  - split; [discriminate|reflexivity].
Defined.

End ExecuteBurstExample.

(** ** The callers of the detector *)

Section DetectorCallers.
Import Loop.

(** With every record and the call in one window, the repetition test only
    counts the records of the action. *)
Lemma check_action_in_window (lo : Q) (d : LoopDetector) a md t :
  Forall (fun r => in_window (config d) lo (timestamp r)) (action_history d) ->
  in_window (config d) lo t ->
  check_action d a md t =
  let d1 := {| config := config d; action_history := action_history d;
               iteration_count := iteration_count d + 1 |} in
  let n := Z.of_nat (length (filter (fun r => String.eqb (action r) a)
                               (action_history d))) in
  if max_total_iterations (config d) <? iteration_count d + 1
  then (d1, Raised (MaxIterationsExceeded (max_total_iterations (config d))))
  else if max_action_repetitions (config d) <=? n
  then (d1, Raised (LoopDetected a n (repetition_window (config d))))
  else ({| config := config d;
           action_history :=
             action_history d
             ++ [ {| action := a; timestamp := t;
                     metadata := match md with Some m => m | None => [] end |} ];
           iteration_count := iteration_count d + 1 |}, Returned).
Proof.
  intros Hall [Ht1 Ht2].
  unfold check_action, _check_repetition, repetition_count, recent_actions.
  cbn [config action_history iteration_count]. cbn zeta.
  rewrite (filter_all (fun r => Qle_bool _ (timestamp r)) (action_history d)).
  - destruct (_ <? _); [reflexivity|]. destruct (_ <=? _); reflexivity.
  - eapply Forall_impl; [|exact Hall]. intros r [Hr1 Hr2]. cbn beta.
    apply Qle_bool_iff. lra.
Qed.

(** X24.  A new [MonitoredAgent] whose first seven calls of [check_action]
    fall within 60 seconds never gets to the end of [_fix_pod]: the pod is
    checked and restarted three times, and the fourth check raises
    [LoopDetected] for "check_pod_status".  The detector then holds six
    records and has counted seven calls. *)
Theorem X24_fix_pod_stops_after_three_restarts (clock : nat -> Q) (lo : Q) :
  (forall k, (k < 7)%nat -> in_window Monitored.agent_config lo (clock k)) ->
  snd (Monitored._fix_pod clock Monitored.new_detector)
    = Monitored.Raises (LoopDetected "check_pod_status" 3 60)
  /\ map action (action_history (fst (Monitored._fix_pod clock Monitored.new_detector)))
     = ["check_pod_status"; "restart_pod"; "check_pod_status"; "restart_pod";
        "check_pod_status"; "restart_pod"]%string
  /\ iteration_count (fst (Monitored._fix_pod clock Monitored.new_detector)) = 7.
Proof.
  intros Hw.
  unfold Monitored._fix_pod, Monitored.new_detector.
  cbn [Monitored.fix_pod_from].
  do 7 (rewrite (check_action_in_window lo);
        [ cbn -[in_window check_action]
        | cbn [init config action_history app timestamp];
          repeat (apply Forall_cons; [apply Hw; lia|]); apply Forall_nil
        | cbn [init config]; apply Hw; lia ]).
  repeat split.
Qed.

(** A clock that moves on by one second from one call to the next. *)
Definition every_second (k : nat) : Q := inject_Z (Z.of_nat k).

Lemma every_second_in_window (cfg : LoopDetectionConfig) (k : nat) :
  Z.of_nat k <= repetition_window cfg ->
  in_window cfg 0 (every_second k).
Proof.
  intros H. unfold in_window, every_second. split.
  - change 0%Q with (inject_Z 0). rewrite <- Zle_Qle. lia.
  - rewrite Zle_Qle in H. lra.
Qed.

Lemma X24_fix_pod_stops_after_three_restarts_witness :
  snd (Monitored._fix_pod every_second Monitored.new_detector)
  = Monitored.Raises (LoopDetected "check_pod_status" 3 60).
Proof.
  refine (proj1 (X24_fix_pod_stops_after_three_restarts every_second 0 _)).
  intros k Hk. apply every_second_in_window. cbn. lia.
Defined.

(** X25.  [fix_pod_with_detection], when the first six calls of
    [check_action] fall within 60 seconds, ends in its second turn: the pod
    is restarted twice, the check after the second restart raises
    [LoopDetected] for "check_pod_status", and the humans are alerted of a
    loop.  The detector then holds five records and has counted six
    calls. *)
Theorem X25_fixed_loop_alerts_after_two_restarts (turns : nat) (clock : nat -> Q)
    (pod_name : string) (lo : Q) :
  (forall k, (k < 6)%nat -> in_window FixedLoop.example_config lo (clock k)) ->
  let r := FixedLoop.fix_pod_with_detection (S (S turns)) clock pod_name in
  snd r = Some (FixedLoop.LoopAlert (LoopDetected "check_pod_status" 3 60))
  /\ map action (action_history (fst r))
     = ["check_pod_status"; "restart_pod"; "check_pod_status";
        "check_pod_status"; "restart_pod"]%string
  /\ iteration_count (fst r) = 6.
Proof.
  intros Hw. cbn zeta.
  unfold FixedLoop.fix_pod_with_detection.
  cbn [FixedLoop.loop].
  do 6 (rewrite (check_action_in_window lo);
        [ cbn -[in_window check_action FixedLoop.loop]
        | cbn [init config action_history app timestamp];
          repeat (apply Forall_cons; [apply Hw; lia|]); apply Forall_nil
        | cbn [init config]; apply Hw; lia ]).
  repeat split.
Qed.

Lemma X25_fixed_loop_alerts_after_two_restarts_witness :
  snd (FixedLoop.fix_pod_with_detection 2 every_second "my-app-pod")
  = Some (FixedLoop.LoopAlert (LoopDetected "check_pod_status" 3 60)).
Proof.
  refine (proj1 (X25_fixed_loop_alerts_after_two_restarts 0 every_second
                   "my-app-pod" 0 _)).
  intros k Hk. apply every_second_in_window. cbn. lia.
Defined.

End DetectorCallers.

(** ** The breaker in front of the flaky service *)

Section FlakyDemo.
Import Breaker.

Lemma attempts_cons (svc : Flaky.FlakyService) (b : CircuitBreaker) t rest :
  Flaky.attempts svc b (t :: rest) =
  let r := call b (Flaky.as_operation svc) {| clock := t; invocations := 0 |} in
  let svc1 := match invocations (snd (fst r)) with
              | O => svc
              | S _ => fst (Flaky.call svc)
              end in
  let r' := Flaky.attempts svc1 (fst (fst r)) rest in
  (fst (fst r'), snd (fst r'), snd r :: snd r').
Proof.
  cbn [Flaky.attempts].
  destruct (call b (Flaky.as_operation svc) _) as [[b1 w1] o]; cbn [fst snd].
  destruct (Flaky.attempts _ b1 rest) as [[svc2 b2] os]; reflexivity.
Qed.

Lemma attempts_app (svc : Flaky.FlakyService) (b : CircuitBreaker) l1 l2 :
  Flaky.attempts svc b (l1 ++ l2) =
  let r := Flaky.attempts svc b l1 in
  let r' := Flaky.attempts (fst (fst r)) (snd (fst r)) l2 in
  (fst (fst r'), snd (fst r'), snd r ++ snd r').
Proof.
  revert svc b; induction l1 as [|t l1 IH]; intros svc b.
  - cbn. destruct (Flaky.attempts svc b l2) as [[svc2 b2] os]; reflexivity.
  - rewrite <- app_comm_cons, !attempts_cons. cbn zeta. rewrite IH. reflexivity.
Qed.

(** The breaker lets [ConnectionError] count. *)
Definition counts_connection_errors (cfg : CircuitBreakerConfig) : Prop :=
  expected_exception cfg "ConnectionError"%string = true.

(** One failing attempt on a closed breaker. *)
Lemma closed_attempt_fails (svc : Flaky.FlakyService) (b : CircuitBreaker) (t : Q) :
  state b = CLOSED ->
  counts_connection_errors (config b) ->
  Flaky.calls svc + 1 <= Flaky.failure_count svc ->
  Flaky.attempts svc b [t] =
  ({| Flaky.calls := Flaky.calls svc + 1;
      Flaky.failure_count := Flaky.failure_count svc |},
   _on_failure b t,
   [Raised (OperationError "ConnectionError"%string)]).
Proof.
  intros Hs He Hf. rewrite attempts_cons. cbn zeta. cbn [Flaky.attempts fst snd].
  unfold call, check_open, attempt, Flaky.as_operation, Flaky.call.
  rewrite Hs. cbn [Flaky.calls Flaky.failure_count clock invocations fst snd].
  destruct (Z.leb_spec (Flaky.calls svc + 1) (Flaky.failure_count svc)); [|lia].
  cbn [fst snd]. unfold counts_connection_errors in He. rewrite He.
  reflexivity.
Qed.

(** Failures below the threshold leave the breaker closed and are counted,
    by the breaker and by the service. *)
Lemma closed_attempts_fail (times : list Q) (svc : Flaky.FlakyService)
    (b : CircuitBreaker) :
  state b = CLOSED ->
  counts_connection_errors (config b) ->
  Flaky.calls svc + Z.of_nat (length times) <= Flaky.failure_count svc ->
  failure_count b + Z.of_nat (length times) < failure_threshold (config b) ->
  let r := Flaky.attempts svc b times in
  fst (fst r) = {| Flaky.calls := Flaky.calls svc + Z.of_nat (length times);
                   Flaky.failure_count := Flaky.failure_count svc |}
  /\ state (snd (fst r)) = CLOSED
  /\ config (snd (fst r)) = config b
  /\ failure_count (snd (fst r)) = failure_count b + Z.of_nat (length times)
  /\ snd r = repeat (Raised (OperationError "ConnectionError"%string)) (length times).
Proof.
  revert svc b; induction times as [|t times IH]; intros svc b Hs He Hf Hb.
  - cbn. rewrite !Z.add_0_r. repeat split; [now destruct svc|exact Hs].
  - cbn [length] in *. cbn zeta.
    change (t :: times) with ([t] ++ times). rewrite attempts_app. cbn zeta.
    rewrite (closed_attempt_fails svc b t Hs He) by lia. cbn [fst snd].
    assert (Hon : _on_failure b t =
                  {| config := config b; state := CLOSED;
                     failure_count := failure_count b + 1;
                     success_count := success_count b;
                     last_failure_time := Some t;
                     last_state_change := last_state_change b |}).
    { unfold _on_failure. rewrite Hs.
      destruct (Z.leb_spec (failure_threshold (config b)) (failure_count b + 1));
        [lia|reflexivity]. }
    rewrite Hon.
    destruct (IH {| Flaky.calls := Flaky.calls svc + 1;
                    Flaky.failure_count := Flaky.failure_count svc |}
                 {| config := config b; state := CLOSED;
                    failure_count := failure_count b + 1;
                    success_count := success_count b;
                    last_failure_time := Some t;
                    last_state_change := last_state_change b |})
      as [I1 [I2 [I3 [I4 I5]]]];
      cbn [state config failure_count Flaky.calls Flaky.failure_count];
      [reflexivity|exact He|lia|lia|].
    cbn [Flaky.calls Flaky.failure_count config failure_count] in *.
    rewrite I1, I2, I3, I4, I5. cbn [app repeat].
    repeat split; try lia. f_equal. lia.
Qed.

(** While the timeout has not passed, an open breaker turns every attempt
    away, tells how long to wait, and the service is not called. *)
Lemma open_attempts_rejected (times : list Q) (svc : Flaky.FlakyService)
    (b : CircuitBreaker) (t0 : Q) :
  state b = OPEN ->
  last_failure_time b = Some t0 ->
  Forall (fun t => (t - t0 < timeout (config b))%Q) times ->
  Flaky.attempts svc b times =
  (svc, b,
   map (fun t => Raised (CircuitOpenError (timeout (config b) - (t - t0))%Q)) times).
Proof.
  intros Hs Ht Hall. induction Hall as [|t times Hlt _ IH]; [reflexivity|].
  rewrite attempts_cons. cbn zeta.
  rewrite (open_rejects_before_timeout b (Flaky.as_operation svc)
             {| clock := t; invocations := 0 |} t0 Hs Ht Hlt).
  cbn [fst snd invocations clock]. rewrite IH. cbn [fst snd map].
  unfold _time_until_retry. rewrite Ht.
  assert (Hpos : Qltb 0 (timeout (config b) - (t - t0)) = true)
    by (apply Qltb_lt; lra).
  now rewrite Hpos.
Qed.

(** X26.  A new breaker with [failure_threshold = n + 1] in front of a
    service that fails at least its first [n + 1] calls: the first [n + 1]
    attempts reach the service and raise [ConnectionError]; every attempt
    made after that, less than [timeout] seconds after attempt [n + 1], is
    turned away with [CircuitOpenError] and the time left to wait, and does
    not reach the service, which has been called [n + 1] times in all. *)
Theorem X26_breaker_shields_the_service (cfg : CircuitBreakerConfig) (now0 : Q)
    (n : nat) (failures : Z) (first : list Q) (opening : Q) (later : list Q) :
  failure_threshold cfg = Z.of_nat (S n) ->
  counts_connection_errors cfg ->
  Z.of_nat (S n) <= failures ->
  length first = n ->
  Forall (fun t => (t - opening < timeout cfg)%Q) later ->
  let r := Flaky.attempts (Flaky.init failures) (init (Some cfg) now0)
             (first ++ opening :: later) in
  Flaky.calls (fst (fst r)) = Z.of_nat (S n)
  /\ state (snd (fst r)) = OPEN
  /\ last_failure_time (snd (fst r)) = Some opening
  /\ snd r
     = repeat (Raised (OperationError "ConnectionError"%string)) (S n)
       ++ map (fun t => Raised (CircuitOpenError (timeout cfg - (t - opening))%Q))
              later.
Proof.
  intros Hth He Hf Hlen Hlater. cbn zeta.
  rewrite attempts_app. cbn zeta.
  destruct (closed_attempts_fail first (Flaky.init failures) (init (Some cfg) now0))
    as [I1 [I2 [I3 [I4 I5]]]];
    cbn [init state config failure_count Flaky.init Flaky.calls Flaky.failure_count];
    [reflexivity|exact He|lia|lia|].
  cbn [init config failure_count Flaky.init Flaky.calls Flaky.failure_count] in *.
  set (r1 := Flaky.attempts (Flaky.init failures) (init (Some cfg) now0) first) in *.
  change (opening :: later) with ([opening] ++ later).
  rewrite attempts_app. cbn zeta.
  rewrite I1, I5, Hlen.
  rewrite (closed_attempt_fails _ (snd (fst r1)) opening I2);
    [|unfold counts_connection_errors; now rewrite I3
     |cbn [Flaky.calls Flaky.failure_count]; lia].
  cbn [fst snd].
  assert (Hon : _on_failure (snd (fst r1)) opening =
                {| config := cfg; state := OPEN;
                   failure_count := Z.of_nat (S n);
                   success_count := 0;
                   last_failure_time := Some opening;
                   last_state_change := opening |}).
  { unfold _on_failure. rewrite I2, I3, I4, Hth, Hlen.
    destruct (Z.leb_spec (Z.of_nat (S n)) (0 + Z.of_nat n + 1)); [|lia].
    f_equal. lia. }
  rewrite Hon.
  rewrite (open_attempts_rejected later _ _ opening); cbn [state last_failure_time config];
    [|reflexivity|reflexivity|exact Hlater].
  cbn [fst snd Flaky.calls state last_failure_time].
  repeat split; try lia.
  rewrite app_assoc. f_equal.
  change [Raised (OperationError "ConnectionError"%string)]
    with (repeat (@Raised Z (OperationError "ConnectionError"%string)) 1).
  rewrite <- repeat_app. f_equal. lia.
Qed.

(** The demonstration itself: threshold 3, timeout 5, a service that fails
    five times, ten attempts half a second apart. *)
Lemma X26_breaker_shields_the_service_witness :
  Flaky.calls
    (fst (fst (Flaky.attempts (Flaky.init 5) (init (Some demo_config) 0)
                 ([0; 1 # 2] ++ 1 :: [3 # 2; 2; 5 # 2; 3; 7 # 2; 4; 9 # 2])%Q)))
  = 3.
Proof.
  refine (proj1 (X26_breaker_shields_the_service demo_config 0 2 5
                   [0; 1 # 2]%Q 1%Q [3 # 2; 2; 5 # 2; 3; 7 # 2; 4; 9 # 2]%Q
                   eq_refl eq_refl _ eq_refl _)).
  - discriminate.
  - repeat (apply Forall_cons; [reflexivity|]). apply Forall_nil.
Defined.

End FlakyDemo.
